(** * drone-1password: the secret resolution engine

    A shallow embedding of the plugin package (path parsing, field
    selection, the Connect REST client, its construction and
    [plugin.Find]) and of the entry point, together with the properties
    of the specification that are settled on it and further properties
    read off the code.

    Go strings are byte sequences and are modelled by [string] (a list of
    8-bit [ascii] characters).  Errors built with [fmt.Errorf] are modelled
    by one constructor per call site, carrying the values interpolated into
    the message. *)

From Stdlib Require Import ZArith NArith Ascii List Lia Bool.
From Stdlib Require DecimalString DecimalZ.
From stdpp Require Import base strings gmap list.

Set Default Proof Using "Type".
Local Open Scope Z_scope.

(** ** Results of fallible functions: Go's [(value, error)] pairs *)

Inductive Result (E A : Type) : Type :=
| Ok (a : A)
| Err (e : E).
Arguments Ok {E A} a.
Arguments Err {E A} e.

(** ** The part of Go's standard library the package calls *)

Module GoLib.

Definition byte_val (c : ascii) : N := Ascii.N_of_ascii c.

(** [len(s) == 0]: the string is empty. *)
Definition is_empty (s : string) : bool :=
  match s with
  | EmptyString => true
  | String _ _ => false
  end.

(** Does the byte [c] occur in [s]? *)
Fixpoint hasByte (c : ascii) (s : string) : bool :=
  match s with
  | EmptyString => false
  | String d s' => Ascii.eqb d c || hasByte c s'
  end.

(** [strings.Cut(s, sep)] for a one-byte separator: the text before and
    after the first occurrence of [sep], [None] when [Index] is negative. *)
Fixpoint Cut (sep : ascii) (s : string) : option (string * string) :=
  match s with
  | EmptyString => None
  | String c s' =>
      if Ascii.eqb c sep then Some (EmptyString, s')
      else match Cut sep s' with
           | Some (a, b) => Some (String c a, b)
           | None => None
           end
  end.

(** [strings.SplitN(s, sep, n)] for a one-byte separator and [n >= 0]:
    [genSplit] cuts at most [n-1] times and stores the rest whole in the
    last slot; [n = 0] gives the nil slice. *)
Fixpoint SplitN (s : string) (sep : ascii) (n : nat) : list string :=
  match n with
  | O => []
  | S O => [s]
  | S n' =>
      match Cut sep s with
      | None => [s]
      | Some (a, b) => a :: SplitN b sep n'
      end
  end.

(** [strings.Replace(s, old, new, -1)] for a one-byte [old]: every
    occurrence is replaced, left to right. *)
Fixpoint ReplaceAll (s : string) (old : ascii) (new : string) : string :=
  match s with
  | EmptyString => EmptyString
  | String c s' =>
      if Ascii.eqb c old then new +:+ ReplaceAll s' old new
      else String c (ReplaceAll s' old new)
  end.

(** [strings.TrimSuffix] and [strings.TrimPrefix] for the one-byte
    argument the client passes. *)
Fixpoint TrimSuffix (s : string) (c : ascii) : string :=
  match s with
  | EmptyString => EmptyString
  | String d EmptyString => if Ascii.eqb d c then EmptyString else s
  | String d s' => String d (TrimSuffix s' c)
  end.

Definition TrimPrefix (s : string) (c : ascii) : string :=
  match s with
  | String d s' => if Ascii.eqb d c then s' else s
  | EmptyString => EmptyString
  end.

(** Bytes below [utf8.RuneSelf]. *)
Definition isASCIIbyte (c : ascii) : bool := (byte_val c <? 128)%N.

Fixpoint isASCII (s : string) : bool :=
  match s with
  | EmptyString => true
  | String c s' => isASCIIbyte c && isASCII s'
  end.

(** The table [asciiSpace] of package strings: tab, line feed, vertical
    tab, form feed, carriage return and space. *)
Definition asciiSpace (c : ascii) : bool :=
  match byte_val c with
  | 9 | 10 | 11 | 12 | 13 | 32 => true
  | _ => false
  end%N.

Fixpoint trimLeft (s : string) : string :=
  match s with
  | EmptyString => EmptyString
  | String c s' => if asciiSpace c then trimLeft s' else s
  end.

Fixpoint trimRight (s : string) : string :=
  match s with
  | EmptyString => EmptyString
  | String c s' =>
      match trimRight s' with
      | EmptyString => if asciiSpace c then EmptyString else String c EmptyString
      | t => String c t
      end
  end.

(** The ASCII path of [strings.TrimSpace]: the slice between the first
    and the last byte that is not in [asciiSpace]. *)
Definition ascii_TrimSpace (s : string) : string := trimRight (trimLeft s).

(** One step of the ASCII loop of [strings.EqualFold]: equal bytes, or
    after ordering them an upper-case letter and its lower-case form. *)
Definition foldEq (sr tr : ascii) : bool :=
  if Ascii.eqb tr sr then true
  else
    let lo := if (byte_val tr <? byte_val sr)%N then tr else sr in
    let hi := if (byte_val tr <? byte_val sr)%N then sr else tr in
    (65 <=? byte_val lo)%N && (byte_val lo <=? 90)%N
    && (byte_val hi =? byte_val lo + 32)%N.

(** The ASCII path of [strings.EqualFold]: the loop over the common
    prefix and the final test [len(s) == len(t)]. *)
Fixpoint ascii_EqualFold (s t : string) : bool :=
  match s, t with
  | EmptyString, EmptyString => true
  | String a s', String b t' => foldEq a b && ascii_EqualFold s' t'
  | _, _ => false
  end.

End GoLib.
Import GoLib.

(** [strings.TrimSpace] and [strings.EqualFold] work on Unicode: white
    space and simple case folding are given by the tables of package
    unicode.  The package is verified against this interface: the two
    functions, what they do on ASCII text (their fast paths, where no byte
    reaches [utf8.RuneSelf]), that trimming a trimmed string changes
    nothing, and that folding relates a solidus only to a solidus (U+002F
    is alone in its folding orbit, and a byte 0x2F always decodes to it). *)
Class GoStrings := {
  TrimSpace : string -> string;
  EqualFold : string -> string -> bool;
  TrimSpace_ascii s :
    isASCII s = true -> TrimSpace s = ascii_TrimSpace s;
  TrimSpace_idem s :
    TrimSpace (TrimSpace s) = TrimSpace s;
  EqualFold_ascii s t :
    isASCII s = true -> isASCII t = true ->
    EqualFold s t = ascii_EqualFold s t;
  EqualFold_solidus s t :
    EqualFold s t = true -> hasByte "/" s = hasByte "/" t
}.

(** ** Data model (plugin/types.go) *)

Record itemFieldSection := { FieldSection_ID : string }.

Record itemField := {
  Field_ID : string;
  Field_Label : string;
  Field_Value : string;
  Field_Purpose : string;
  Field_Type : string;
  Field_Section : option itemFieldSection   (* a nil pointer is [None] *)
}.

Record itemSection := { Section_ID : string; Section_Label : string }.

Record fullItem := {
  Item_ID : string;
  Item_Title : string;
  Item_Fields : list itemField;
  Item_Sections : list itemSection;
  Item_NotesPlain : string
}.

Record vaultSummary := { Vault_ID : string; Vault_Name : string }.

Record itemSummary := { Summary_ID : string; Summary_Title : string }.

(** [secret.Request] and [drone.Secret], restricted to the fields the
    plugin reads and writes. *)
Record Request := { Req_Name : string; Req_Path : string }.

Record Secret := { Secret_Name : string; Secret_Data : string; Secret_PullRequest : bool }.

(** ** Errors

    One constructor per error value the package creates; the arguments are
    the values formatted into the message. *)

Inductive wrapCtx := LookupVault | LookupItem | LoadItem.

Inductive error :=
| ErrNilRequest                                   (* nil request *)
| ErrEmptyName                                    (* secret name must not be empty *)
| ErrPathFormat                                   (* secret path must be formatted as vault/item[/field] *)
| ErrEmptyVaultOrItem                             (* vault and item names cannot be empty *)
| ErrNoNotes (title : string)                     (* item %q does not contain notes *)
| ErrMultiplePasswords (title : string)           (* item %q defines multiple password fields; ... *)
| ErrFieldNotFound (label title : string)         (* field %q not found in item %q *)
| ErrFieldAmbiguous (label title : string)        (* field label %q is ambiguous in item %q; ... *)
| ErrSectionNotFound (section title : string)     (* section %q not found in item %q *)
| ErrFieldNotInSection (label section : string)   (* field %q not found in section %q *)
| ErrFieldDuplicated (label section : string)     (* field %q is duplicated in section %q *)
| ErrVaultNotFound (name : string)                (* vault %q not found *)
| ErrMultipleVaults (name : string)               (* multiple vaults match name %q *)
| ErrItemNotFound (title vaultID : string)        (* item %q not found in vault %q *)
| ErrMultipleItems (title vaultID : string)       (* multiple items named %q found in vault %q *)
| ErrAPI (StatusCode : Z) (Message : string)      (* the *apiError value *)
| ErrTransport (msg : string)                     (* returned by http.NewRequestWithContext or httpClient.Do *)
| ErrDecode                                       (* returned by json Decode on a 2xx body *)
| ErrWrap (ctx : wrapCtx) (name : string) (e : error).  (* fmt.Errorf with the verb %w *)

(** The error kinds of the specification's taxonomy. *)
Inductive errorKind :=
| InvalidRequest | MalformedPath
| VaultNotFound | AmbiguousVault | ItemNotFound | AmbiguousItem
| SectionNotFound | FieldNotFound | AmbiguousField
| StoreAPIError | TransportError | DecodeError.

Fixpoint kind (e : error) : errorKind :=
  match e with
  | ErrNilRequest | ErrEmptyName => InvalidRequest
  | ErrPathFormat | ErrEmptyVaultOrItem => MalformedPath
  | ErrNoNotes _ | ErrFieldNotFound _ _ | ErrFieldNotInSection _ _ => FieldNotFound
  | ErrMultiplePasswords _ | ErrFieldAmbiguous _ _ | ErrFieldDuplicated _ _ => AmbiguousField
  | ErrSectionNotFound _ _ => SectionNotFound
  | ErrVaultNotFound _ => VaultNotFound
  | ErrMultipleVaults _ => AmbiguousVault
  | ErrItemNotFound _ _ => ItemNotFound
  | ErrMultipleItems _ _ => AmbiguousItem
  | ErrAPI _ _ => StoreAPIError
  | ErrTransport _ => TransportError
  | ErrDecode => DecodeError
  | ErrWrap _ _ e' => kind e'
  end.

(** ** Path parsing and field selection *)

Section Selection.
Context `{GoStrings}.

Definition parseSecretPath (path : string) : Result error (string * string * string) :=
  let parts := SplitN path "/" 3 in
  if (length parts <? 2)%nat then Err ErrPathFormat
  else
    let vault := TrimSpace (nth 0 parts EmptyString) in
    let item := TrimSpace (nth 1 parts EmptyString) in
    if is_empty vault || is_empty item then Err ErrEmptyVaultOrItem
    else
      let field := if (length parts =? 3)%nat
                   then TrimSpace (nth 2 parts EmptyString) else EmptyString in
      Ok (vault, item, field).

Definition findFieldByLabel (item : fullItem) (label : string) : Result error string :=
  let fieldLabel := TrimSpace label in
  let matches :=
    fold_left
      (fun (matches : list itemField) (field : itemField) =>
         if negb (EqualFold (Field_Label field) fieldLabel) then matches
         else if is_empty (Field_Value field) then matches
         else matches ++ [field])
      (Item_Fields item) [] in
  match matches with
  | [] => Err (ErrFieldNotFound fieldLabel (Item_Title item))
  | [m] => Ok (Field_Value m)
  | _ => Err (ErrFieldAmbiguous fieldLabel (Item_Title item))
  end.

Definition defaultPassword (item : fullItem) : Result error string :=
  let matches :=
    fold_left
      (fun (matches : list string) (field : itemField) =>
         if negb (EqualFold (Field_Purpose field) "PASSWORD") then matches
         else if is_empty (Field_Value field) then matches
         else matches ++ [Field_Value field])
      (Item_Fields item) [] in
  match matches with
  | [m] => Ok m
  | [] => findFieldByLabel item "password"
  | _ => Err (ErrMultiplePasswords (Item_Title item))
  end.

Definition findFieldInSection (item : fullItem) (sectionLabel fieldLabel : string)
  : Result error string :=
  let sectionIDs : gset string :=
    fold_left
      (fun (ids : gset string) (section : itemSection) =>
         if EqualFold (Section_Label section) sectionLabel
         then {[ Section_ID section ]} ∪ ids else ids)
      (Item_Sections item) ∅ in
  if (size sectionIDs =? 0)%nat
  then Err (ErrSectionNotFound sectionLabel (Item_Title item))
  else
    let matches :=
      fold_left
        (fun (matches : list itemField) (field : itemField) =>
           match Field_Section field with
           | None => matches
           | Some sec =>
               if negb (bool_decide (FieldSection_ID sec ∈ sectionIDs)) then matches
               else if negb (EqualFold (Field_Label field) fieldLabel) then matches
               else if is_empty (Field_Value field) then matches
               else matches ++ [field]
           end)
        (Item_Fields item) [] in
    match matches with
    | [] => Err (ErrFieldNotInSection fieldLabel sectionLabel)
    | [m] => Ok (Field_Value m)
    | _ => Err (ErrFieldDuplicated fieldLabel sectionLabel)
    end.

Definition splitQualifiedLabel (label : string) : string * string :=
  let parts := SplitN label "/" 2 in
  if (length parts =? 1)%nat then (EmptyString, TrimSpace (nth 0 parts EmptyString))
  else (TrimSpace (nth 0 parts EmptyString), TrimSpace (nth 1 parts EmptyString)).

Definition selectFieldValue (item : fullItem) (selector : string) : Result error string :=
  if is_empty selector then defaultPassword item
  else if EqualFold selector "notes" || EqualFold selector "notesPlain" then
    if is_empty (Item_NotesPlain item)
    then Err (ErrNoNotes (Item_Title item))
    else Ok (Item_NotesPlain item)
  else
    let '(sectionName, fieldLabel) := splitQualifiedLabel selector in
    if negb (is_empty sectionName)
    then findFieldInSection item sectionName fieldLabel
    else findFieldByLabel item fieldLabel.

End Selection.

(** ** The part of package net/url the client calls *)

Module NetURL.

Inductive encoding := encodePathSegment | encodeQueryComponent.

Definition between (lo hi : N) (c : ascii) : bool :=
  (lo <=? byte_val c)%N && (byte_val c <=? hi)%N.

(** [shouldEscape(c, mode)] for the two modes used here. *)
Definition shouldEscape (c : ascii) (mode : encoding) : bool :=
  if between 97 122 c || between 65 90 c || between 48 57 c then false
  else
    match c with
    | "-" | "_" | "." | "~" => false
    | "$" | "&" | "+" | "," | "/" | ":" | ";" | "=" | "?" | "@" =>
        match mode with
        | encodePathSegment =>
            Ascii.eqb c "/" || Ascii.eqb c ";" || Ascii.eqb c "," || Ascii.eqb c "?"
        | encodeQueryComponent => true
        end
    | _ => true
    end%char.

(** The table [upperhex]. *)
Definition upperhex (n : N) : ascii :=
  match n with
  | 0 => "0" | 1 => "1" | 2 => "2" | 3 => "3" | 4 => "4" | 5 => "5"
  | 6 => "6" | 7 => "7" | 8 => "8" | 9 => "9" | 10 => "A" | 11 => "B"
  | 12 => "C" | 13 => "D" | 14 => "E" | _ => "F"
  end%N%char.

(** [escape(s, mode)]: a space becomes [+] in a query component, a byte
    that must be escaped becomes [%XX], every other byte is kept. *)
Fixpoint escape (s : string) (mode : encoding) : string :=
  match s with
  | EmptyString => EmptyString
  | String c s' =>
      match mode with
      | encodeQueryComponent =>
          if Ascii.eqb c " " then String "+" (escape s' mode)
          else if shouldEscape c mode then
            String "%" (String (upperhex (N.shiftr (byte_val c) 4))
              (String (upperhex (N.land (byte_val c) 15)) (escape s' mode)))
          else String c (escape s' mode)
      | encodePathSegment =>
          if shouldEscape c mode then
            String "%" (String (upperhex (N.shiftr (byte_val c) 4))
              (String (upperhex (N.land (byte_val c) 15)) (escape s' mode)))
          else String c (escape s' mode)
      end
  end.

Definition PathEscape (s : string) : string := escape s encodePathSegment.
Definition QueryEscape (s : string) : string := escape s encodeQueryComponent.

Definition ishex (c : ascii) : bool :=
  between 48 57 c || between 97 102 c || between 65 70 c.

Definition unhex (c : ascii) : N :=
  if between 48 57 c then (byte_val c - 48)%N
  else if between 97 102 c then (byte_val c - 97 + 10)%N
  else if between 65 70 c then (byte_val c - 65 + 10)%N
  else 0%N.

(** [unescape(s, mode)]: [None] stands for the [EscapeError] returned
    when a [%] is not followed by two hexadecimal digits. *)
Fixpoint unescape (s : string) (mode : encoding) : option string :=
  match s with
  | EmptyString => Some EmptyString
  | String c s' =>
      if Ascii.eqb c "%" then
        match s' with
        | String h1 (String h2 rest) =>
            if ishex h1 && ishex h2 then
              match unescape rest mode with
              | Some t =>
                  Some (String (Ascii.ascii_of_N
                                  (N.lor (N.shiftl (unhex h1) 4) (unhex h2))) t)
              | None => None
              end
            else None
        | _ => None
        end
      else
        match unescape s' mode with
        | Some t =>
            if Ascii.eqb c "+" then
              match mode with
              | encodeQueryComponent => Some (String " " t)
              | encodePathSegment => Some (String "+" t)
              end
            else Some (String c t)
        | None => None
        end
  end.

Definition PathUnescape (s : string) : option string := unescape s encodePathSegment.
Definition QueryUnescape (s : string) : option string := unescape s encodeQueryComponent.

(** [url.Values]: the keys in sorted order, each with its values. *)
Definition Values := list (string * list string).

Fixpoint join (sep : string) (l : list string) : string :=
  match l with
  | [] => EmptyString
  | [x] => x
  | x :: l' => x +:+ sep +:+ join sep l'
  end.

(** [Values.Encode]: [key=value] pairs, both escaped as query
    components, joined by [&]. *)
Definition Encode (v : Values) : string :=
  join "&"
    (flat_map
       (fun kv : string * list string =>
          map (fun x => QueryEscape (fst kv) +:+ "=" +:+ QueryEscape x) (snd kv))
       v).

(** The fields of [url.URL] the client reads and writes. *)
Record URL := {
  Scheme : string;
  Host : string;
  Path : string;
  RawQuery : string
}.

End NetURL.
Import NetURL.

(** ** The Connect client *)

(** The JSON error payload [get] decodes a failing response into.  A
    member missing from the document leaves the Go zero value. *)
Record errorPayload := { Payload_Status : Z; Payload_Message : string }.

(** A response body, seen through encoding/json: what [Decode] yields for
    each of the Go types the client decodes into, [None] when [Decode]
    returns an error. *)
Record jsonBody := {
  as_vaults : option (list vaultSummary);
  as_items : option (list itemSummary);
  as_item : option fullItem;
  as_payload : option errorPayload
}.

Record httpResponse := {
  StatusCode : Z;
  Status : string;        (* the status line, for example 404 Not Found *)
  Body : jsonBody
}.

Record httpRequest := {
  Req_URL : URL;
  Req_Authorization : string;
  Req_Accept : string
}.

Record connectClient := { baseURL : URL; token : string }.

(** The double quote, byte 34. *)
Definition dquote : ascii := "034"%char.

Definition escapeFilterValue (value : string) : string :=
  let replaced := ReplaceAll value "\" "\\" in
  let replaced := ReplaceAll replaced dquote (String "\" (String dquote EmptyString)) in
  replaced.

Definition buildEqualsFilter (field value : string) : string :=
  field +:+ " eq " +:+ String dquote (escapeFilterValue value +:+ String dquote EmptyString).

Definition escapePathSegment (segment : string) : string :=
  ReplaceAll (PathEscape segment) "+" "%20".

Section Client.
(** The network and the store are the environment: [roundTrip] stands
    for [http.NewRequestWithContext] followed by [httpClient.Do], acting
    on a state [W] of the outside world. *)
Context {W : Type}.
Variable roundTrip : httpRequest -> W -> Result error httpResponse * W.

Record clientState := { world : W; sent : list httpRequest }.

(** Computations that talk to the store: the world is threaded through
    and every request issued is recorded in [sent]. *)
Definition M (A : Type) : Type := clientState -> A * clientState.

#[local] Instance M_ret : MRet M := fun A a st => (a, st).
#[local] Instance M_bind : MBind M :=
  fun A B k m st => let '(a, st') := m st in k a st'.

(** The request [get] builds: lines up to the two header assignments. *)
Definition newRequest (c : connectClient) (path : string) (query : Values) : httpRequest :=
  let u := baseURL c in
  let basePath := TrimSuffix (Path (baseURL c)) "/" in
  let relative := TrimPrefix path "/" in
  let u :=
    if negb (is_empty relative)
    then {| Scheme := Scheme u; Host := Host u;
            Path := basePath +:+ "/" +:+ relative; RawQuery := RawQuery u |}
    else {| Scheme := Scheme u; Host := Host u;
            Path := basePath; RawQuery := RawQuery u |} in
  let u :=
    if (0 <? length query)%nat
    then {| Scheme := Scheme u; Host := Host u;
            Path := Path u; RawQuery := Encode query |}
    else u in
  {| Req_URL := u;
     Req_Authorization := "Bearer " +:+ token c;
     Req_Accept := "application/json" |}.

(** [out] is [None] for a nil interface, otherwise the decoder chosen by
    the type [out] points to; the value decoded is returned with the
    error. *)
Definition get {A : Type} (c : connectClient) (path : string) (query : Values)
    (out : option (jsonBody -> option A)) : M (Result error (option A)) :=
  fun st =>
    let req := newRequest c path query in
    let '(r, w') := roundTrip req (world st) in
    let st' := {| world := w'; sent := sent st ++ [req] |} in
    match r with
    | Err e => (Err e, st')
    | Ok resp =>
        if (200 <=? StatusCode resp) && (StatusCode resp <? 300) then
          match out with
          | None => (Ok None, st')
          | Some decode =>
              match decode (Body resp) with
              | Some a => (Ok (Some a), st')
              | None => (Err ErrDecode, st')
              end
          end
        else
          let message :=
            match as_payload (Body resp) with
            | Some payload =>
                if negb (is_empty (Payload_Message payload))
                then Payload_Message payload
                else Status resp
            | None => Status resp
            end in
          (Err (ErrAPI (StatusCode resp) message), st')
    end.

Definition findVaultByName (c : connectClient) (name : string)
  : M (Result error vaultSummary) :=
  r ← get c "vaults" [("filter", [buildEqualsFilter "name" name])] (Some as_vaults);
  match r with
  | Err e => mret (Err e)
  | Ok decoded =>
      let vaults := default [] decoded in
      match vaults with
      | [] => mret (Err (ErrVaultNotFound name))
      | [v] => mret (Ok v)
      | _ => mret (Err (ErrMultipleVaults name))
      end
  end.

Definition findItemByTitle (c : connectClient) (vaultID title : string)
  : M (Result error itemSummary) :=
  let path := "vaults/" +:+ escapePathSegment vaultID +:+ "/items" in
  r ← get c path [("filter", [buildEqualsFilter "title" title])] (Some as_items);
  match r with
  | Err e => mret (Err e)
  | Ok decoded =>
      let items := default [] decoded in
      match items with
      | [] => mret (Err (ErrItemNotFound title vaultID))
      | [i] => mret (Ok i)
      | _ => mret (Err (ErrMultipleItems title vaultID))
      end
  end.

Definition zeroItem : fullItem :=
  {| Item_ID := EmptyString; Item_Title := EmptyString; Item_Fields := [];
     Item_Sections := []; Item_NotesPlain := EmptyString |}.

Definition getItem (c : connectClient) (vaultID itemID : string)
  : M (Result error fullItem) :=
  let path := "vaults/" +:+ escapePathSegment vaultID
              +:+ "/items/" +:+ escapePathSegment itemID in
  r ← get c path [] (Some as_item);
  match r with
  | Err e => mret (Err e)
  | Ok decoded => mret (Ok (default zeroItem decoded))
  end.

Context `{GoStrings}.

(** [plugin.Find].  The logger is an external collaborator and its calls
    are left out; a nil [req] is [None]. *)
Definition Find (c : connectClient) (req : option Request) : M (Result error Secret) :=
  match req with
  | None => mret (Err ErrNilRequest)
  | Some req =>
      if is_empty (Req_Name req) then mret (Err ErrEmptyName)
      else
        match parseSecretPath (Req_Path req) with
        | Err e => mret (Err e)
        | Ok (vaultName, itemTitle, fieldSelector) =>
            rv ← findVaultByName c vaultName;
            match rv with
            | Err e => mret (Err (ErrWrap LookupVault vaultName e))
            | Ok vault =>
                ri ← findItemByTitle c (Vault_ID vault) itemTitle;
                match ri with
                | Err e => mret (Err (ErrWrap LookupItem itemTitle e))
                | Ok itemSummary =>
                    rf ← getItem c (Vault_ID vault) (Summary_ID itemSummary);
                    match rf with
                    | Err e => mret (Err (ErrWrap LoadItem itemTitle e))
                    | Ok item =>
                        match selectFieldValue item fieldSelector with
                        | Err e => mret (Err e)
                        | Ok value =>
                            mret (Ok {| Secret_Name := Req_Name req;
                                        Secret_Data := value;
                                        Secret_PullRequest := false |})
                        end
                    end
                end
            end
        end
  end.

End Client.

(** ** Building the client and starting the server *)

(** [strings.HasSuffix(s, suffix)]: some tail of [s] is [suffix]. *)
Fixpoint HasSuffix (s suffix : string) : bool :=
  String.eqb s suffix
  || match s with
     | EmptyString => false
     | String _ s' => HasSuffix s' suffix
     end.

(** [time.Duration] counts nanoseconds. *)
Definition Second : Z := 1000000000.

(** The fields of the [url.URL] that [url.Parse] returns which
    [newConnectClient] reads or assigns. *)
Record parsedURL := {
  U_Scheme : string;
  U_Host : string;
  U_Path : string;
  U_RawQuery : string;
  U_Fragment : string
}.

(** [http.Client], by its timeout. *)
Record HTTPClient := { Timeout : Z }.

(** The value [newConnectClient] returns: the three fields of the Go
    struct, with the whole parsed URL. *)
Record builtClient := {
  bc_baseURL : parsedURL;
  bc_httpClient : HTTPClient;
  bc_token : string
}.

(** What [get] reads of it. *)
Definition client_of (b : builtClient) : connectClient :=
  {| baseURL := {| Scheme := U_Scheme (bc_baseURL b); Host := U_Host (bc_baseURL b);
                   Path := U_Path (bc_baseURL b);
                   RawQuery := U_RawQuery (bc_baseURL b) |};
     token := bc_token b |}.

Inductive clientError :=
| ErrMissingHost                    (* missing 1Password Connect host *)
| ErrMissingToken                   (* missing 1Password Connect token *)
| ErrInvalidHost (e : string)       (* invalid 1Password Connect host: %w *)
| ErrSchemeHost.                    (* 1Password Connect host must include scheme and host *)

(** [logrus]: a logger, by the level the code sets. *)
Inductive logLevel := InfoLevel | DebugLevel.

Record FieldLogger := { Level : logLevel }.

(** [logrus.New()] and the initial [logrus.StandardLogger()]. *)
Definition logrus_New : FieldLogger := {| Level := InfoLevel |}.

Record Config := {
  Config_BaseURL : string;
  Config_Token : string;
  Config_HTTPClient : option HTTPClient;   (* a nil pointer is [None] *)
  Config_Logger : option FieldLogger       (* a nil interface is [None] *)
}.

Record plugin := { plugin_client : builtClient; plugin_logger : FieldLogger }.

(** The configuration [envconfig.Process] fills. *)
Record spec := {
  Spec_Bind : string;
  Spec_Debug : bool;
  Spec_Secret : string;
  Spec_ConnectHost : string;
  Spec_ConnectToken : string;
  Spec_ConnectTimeout : Z
}.

(** The ways [main] ends in a fatal log call before it listens. *)
Inductive fatal :=
| FatalEnv (e : string)             (* logrus.Fatal(err) after envconfig.Process *)
| FatalMissingSecret                (* missing secret key *)
| FatalMissingHost                  (* missing OP_CONNECT_HOST *)
| FatalMissingToken                 (* missing OP_CONNECT_TOKEN *)
| FatalNew (e : clientError).       (* logger.Fatal(err) after plugin.New *)

(** What [main] hands to [secret.Handler] and [http.ListenAndServe]. *)
Record listener := {
  listen_bind : string;
  listen_secret : string;
  listen_plugin : plugin;
  listen_logger : FieldLogger
}.

Section Construction.
(** [url.Parse] is the environment; its error is kept as text. *)
Variable Parse : string -> Result string parsedURL.

Definition newConnectClient (baseURL token : string) (httpClient : option HTTPClient)
  : Result clientError builtClient :=
  if is_empty baseURL then Err ErrMissingHost
  else if is_empty token then Err ErrMissingToken
  else
    match Parse baseURL with
    | Err err => Err (ErrInvalidHost err)
    | Ok parsed =>
        if is_empty (U_Scheme parsed) || is_empty (U_Host parsed) then Err ErrSchemeHost
        else
          let cleanPath := TrimSuffix (U_Path parsed) "/" in
          let cleanPath :=
            if is_empty cleanPath then "/v1"
            else if negb (HasSuffix cleanPath "/v1") then cleanPath +:+ "/v1"
            else cleanPath in
          let parsed :=
            {| U_Scheme := U_Scheme parsed; U_Host := U_Host parsed;
               U_Path := cleanPath; U_RawQuery := EmptyString;
               U_Fragment := EmptyString |} in
          let client :=
            match httpClient with
            | Some given => given
            | None => {| Timeout := 15 * Second |}
            end in
          Ok {| bc_baseURL := parsed; bc_httpClient := client; bc_token := token |}
    end.

Definition New (cfg : Config) : Result clientError plugin :=
  match newConnectClient (Config_BaseURL cfg) (Config_Token cfg) (Config_HTTPClient cfg) with
  | Err err => Err err
  | Ok client =>
      let logger :=
        match Config_Logger cfg with
        | Some given => given
        | None => logrus_New
        end in
      Ok {| plugin_client := client; plugin_logger := logger |}
  end.

(** [main], up to the call of [http.ListenAndServe]: [env] is what
    [envconfig.Process] made of the environment, a fatal log call ends the
    process. *)
Definition main (env : Result string spec) : Result fatal listener :=
  match env with
  | Err err => Err (FatalEnv err)
  | Ok spec =>
      let logger :=
        if Spec_Debug spec then {| Level := DebugLevel |} else logrus_New in
      if is_empty (Spec_Secret spec) then Err FatalMissingSecret
      else if is_empty (Spec_ConnectHost spec) then Err FatalMissingHost
      else if is_empty (Spec_ConnectToken spec) then Err FatalMissingToken
      else
        let bind := if is_empty (Spec_Bind spec) then ":3000" else Spec_Bind spec in
        let timeout :=
          if (Spec_ConnectTimeout spec =? 0) then 15 * Second
          else Spec_ConnectTimeout spec in
        let client := {| Timeout := timeout |} in
        match New {| Config_BaseURL := Spec_ConnectHost spec;
                     Config_Token := Spec_ConnectToken spec;
                     Config_HTTPClient := Some client;
                     Config_Logger := Some logger |} with
        | Err err => Err (FatalNew err)
        | Ok plug =>
            Ok {| listen_bind := bind; listen_secret := Spec_Secret spec;
                  listen_plugin := plug; listen_logger := logger |}
        end
  end.

End Construction.

(** ** The text of an API error *)

(** The verb [%d] of package fmt on an [int]. *)
Definition formatInt (n : Z) : string :=
  DecimalString.NilEmpty.string_of_int (Z.to_int n).

(** The method [Error] of [apiError]. *)
Definition apiError_Error (StatusCode : Z) (Message : string) : string :=
  "1Password Connect error (" +:+ formatInt StatusCode +:+ "): " +:+ Message.

(** * Notions of the specification

    Definitions that follow the words of the specification, to be compared
    with the functions above. *)

(** All the components of a string separated by [sep] (no limit on their
    number), as [strings.Split] gives them. *)
Fixpoint Split (sep : ascii) (s : string) : list string :=
  match s with
  | EmptyString => [EmptyString]
  | String c s' =>
      if Ascii.eqb c sep then EmptyString :: Split sep s'
      else match Split sep s' with
           | x :: l => String c x :: l
           | [] => [String c EmptyString]
           end
  end.

Definition is_Err {E A} (r : Result E A) : Prop := exists e, r = Err e.

(** The inverse a filter parser applies to a quoted value: a backslash
    makes the next byte literal. *)
Fixpoint unescapeFilterValue (s : string) : string :=
  match s with
  | EmptyString => EmptyString
  | String c s' =>
      if Ascii.eqb c "\" then
        match s' with
        | String d rest => String d (unescapeFilterValue rest)
        | EmptyString => EmptyString
        end
      else String c (unescapeFilterValue s')
  end.

(** Text without bytes above 127 in everything an item is matched by. *)
Definition ascii_item (item : fullItem) : Prop :=
  Forall (fun f => isASCII (Field_Label f) = true /\ isASCII (Field_Purpose f) = true)
    (Item_Fields item)
  /\ Forall (fun s => isASCII (Section_Label s) = true) (Item_Sections item).

(** A success status: 200 to 299. *)
Definition success (resp : httpResponse) : Prop :=
  200 <= StatusCode resp < 300.

(** The client state after one more request was sent and the world moved
    to [w']. *)
Definition after {W : Type} (st : @clientState W) (req : httpRequest) (w' : W)
  : clientState :=
  {| world := w'; sent := sent st ++ [req] |}.

(** Reading the body of a quoted string: up to the first double quote
    that no backslash makes literal; the value read and the text after the
    closing quote, [None] when the quote is never closed. *)
Fixpoint scanQuoted (s : string) : option (string * string) :=
  match s with
  | EmptyString => None
  | String c s' =>
      if Ascii.eqb c dquote then Some (EmptyString, s')
      else if Ascii.eqb c "\" then
        match s' with
        | String d rest =>
            match scanQuoted rest with
            | Some (v, r) => Some (String d v, r)
            | None => None
            end
        | EmptyString => None
        end
      else
        match scanQuoted s' with
        | Some (v, r) => Some (String c v, r)
        | None => None
        end
  end.

(** The three requests of a resolution. *)
Definition vaultRequest (c : connectClient) (name : string) : httpRequest :=
  newRequest c "vaults" [("filter", [buildEqualsFilter "name" name])].

Definition itemRequest (c : connectClient) (vaultID title : string) : httpRequest :=
  newRequest c ("vaults/" +:+ escapePathSegment vaultID +:+ "/items")
    [("filter", [buildEqualsFilter "title" title])].

Definition loadRequest (c : connectClient) (vaultID itemID : string) : httpRequest :=
  newRequest c ("vaults/" +:+ escapePathSegment vaultID
                +:+ "/items/" +:+ escapePathSegment itemID) [].


(** An item with the fields without a value left out. *)
Definition without_unset_fields (item : fullItem) : fullItem :=
  {| Item_ID := Item_ID item;
     Item_Title := Item_Title item;
     Item_Fields :=
       List.filter (fun f => negb (is_empty (Field_Value f))) (Item_Fields item);
     Item_Sections := Item_Sections item;
     Item_NotesPlain := Item_NotesPlain item |}.

(** Letters and digits only, as the identifiers the store issues. *)
Definition alnum (c : ascii) : bool :=
  between 97 122 c || between 65 90 c || between 48 57 c.

Fixpoint all_alnum (s : string) : bool :=
  match s with
  | EmptyString => true
  | String c s' => alnum c && all_alnum s'
  end.

Section SpecNotions.
Context `{GoStrings}.

(** A password candidate: purpose PASSWORD in any case, value set. *)
Definition password_candidate (f : itemField) : bool :=
  EqualFold (Field_Purpose f) "PASSWORD" && negb (is_empty (Field_Value f)).

(** A candidate of a label lookup: the label in any case, value set. *)
Definition label_candidate (label : string) (f : itemField) : bool :=
  EqualFold (Field_Label f) label && negb (is_empty (Field_Value f)).

(** The unqualified label lookup of the specification (4.2, step 3). *)
Definition unqualified_lookup (item : fullItem) (label : string) : Result error string :=
  match List.filter (label_candidate label) (Item_Fields item) with
  | [] => Err (ErrFieldNotFound label (Item_Title item))
  | [f] => Ok (Field_Value f)
  | _ => Err (ErrFieldAmbiguous label (Item_Title item))
  end.

(** The ids of all sections carrying a label. *)
Definition section_ids (item : fullItem) (sectionLabel : string) : gset string :=
  list_to_set
    (map Section_ID
       (List.filter (fun s => EqualFold (Section_Label s) sectionLabel)
          (Item_Sections item))).

(** A candidate of a section-qualified lookup. *)
Definition section_candidate (ids : gset string) (label : string) (f : itemField) : bool :=
  match Field_Section f with
  | Some sec => bool_decide (FieldSection_ID sec ∈ ids)
  | None => false
  end && label_candidate label f.

End SpecNotions.

(** * Sample data

    The item and the store of the package's tests, and a few variations,
    used to run the definitions. *)

Definition plain_field (label value purpose : string) (sec : option itemFieldSection)
  : itemField :=
  {| Field_ID := EmptyString; Field_Label := label; Field_Value := value;
     Field_Purpose := purpose; Field_Type := EmptyString; Field_Section := sec |}.

Definition sample_item : fullItem :=
  {| Item_ID := EmptyString;
     Item_Title := "Sample";
     Item_Fields :=
       [ plain_field "Username" "octocat" EmptyString None;
         plain_field "Password" "hunter2" "PASSWORD" None;
         plain_field "Token" "abc123" EmptyString (Some {| FieldSection_ID := "sec" |}) ];
     Item_Sections := [ {| Section_ID := "sec"; Section_Label := "Service Keys" |} ];
     Item_NotesPlain := "secret note" |}.

(** Two sections share a label and each holds a Token field. *)
Definition shared_label_item : fullItem :=
  {| Item_ID := EmptyString;
     Item_Title := "Shared";
     Item_Fields :=
       [ plain_field "Token" "first" EmptyString (Some {| FieldSection_ID := "s1" |});
         plain_field "token" "second" EmptyString (Some {| FieldSection_ID := "s2" |}) ];
     Item_Sections :=
       [ {| Section_ID := "s1"; Section_Label := "Service Keys" |};
         {| Section_ID := "s2"; Section_Label := "service keys" |} ];
     Item_NotesPlain := EmptyString |}.

Definition database_item : fullItem :=
  {| Item_ID := EmptyString;
     Item_Title := "Database Credentials";
     Item_Fields := [ plain_field "Password" "hunter2" "PASSWORD" None ];
     Item_Sections := [];
     Item_NotesPlain := EmptyString |}.

Definition sample_client : connectClient :=
  {| baseURL := {| Scheme := "http"; Host := "connect.local";
                   Path := "/v1"; RawQuery := EmptyString |};
     token := "token" |}.

Definition no_body : jsonBody :=
  {| as_vaults := None; as_items := None; as_item := None; as_payload := None |}.

Definition ok_response (body : jsonBody) : httpResponse :=
  {| StatusCode := 200; Status := "200 OK"; Body := body |}.

(** The store of [TestPluginFind]: one vault, one item, every other path
    answers 404 with an empty body.  Its state counts the requests. *)
Definition sample_store (req : httpRequest) (served : nat)
  : Result error httpResponse * nat :=
  let p := Path (Req_URL req) in
  (if bool_decide (p = "/v1/vaults") then
     Ok (ok_response
           {| as_vaults := Some [ {| Vault_ID := "vault-id"; Vault_Name := "Production Vault" |} ];
              as_items := None; as_item := None; as_payload := None |})
   else if bool_decide (p = "/v1/vaults/vault-id/items") then
     Ok (ok_response
           {| as_vaults := None;
              as_items := Some [ {| Summary_ID := "item-id";
                                    Summary_Title := "Database Credentials" |} ];
              as_item := None; as_payload := None |})
   else if bool_decide (p = "/v1/vaults/vault-id/items/item-id") then
     Ok (ok_response
           {| as_vaults := None; as_items := None;
              as_item := Some database_item; as_payload := None |})
   else
     Ok {| StatusCode := 404; Status := "404 Not Found"; Body := no_body |},
   S served).

Definition start : @clientState nat := {| world := O; sent := [] |}.

(** A store that answers every request with status 429 and a JSON object
    whose message member is the empty string. *)
Definition empty_message_response : httpResponse :=
  {| StatusCode := 429;
     Status := "429 Too Many Requests";
     Body := {| as_vaults := None; as_items := None; as_item := None;
                as_payload := Some {| Payload_Status := 429;
                                      Payload_Message := EmptyString |} |} |}.

Definition throttling_store (req : httpRequest) (served : nat)
  : Result error httpResponse * nat :=
  (Ok empty_message_response, S served).

(** The same status with the message of the specification's example. *)
Definition rate_limited_response : httpResponse :=
  {| StatusCode := 429;
     Status := "429 Too Many Requests";
     Body := {| as_vaults := None; as_items := None; as_item := None;
                as_payload := Some {| Payload_Status := 429;
                                      Payload_Message := "rate limited" |} |} |}.

Definition rate_limited_store (req : httpRequest) (served : nat)
  : Result error httpResponse * nat :=
  (Ok rate_limited_response, S served).

(** The fields of the sample item in the opposite order. *)
Definition reordered_item : fullItem :=
  {| Item_ID := EmptyString;
     Item_Title := "Sample";
     Item_Fields :=
       [ plain_field "Token" "abc123" EmptyString (Some {| FieldSection_ID := "sec" |});
         plain_field "Password" "hunter2" "PASSWORD" None;
         plain_field "Username" "octocat" EmptyString None ];
     Item_Sections := [ {| Section_ID := "sec"; Section_Label := "Service Keys" |} ];
     Item_NotesPlain := "secret note" |}.

(** What [url.Parse] makes of three host settings; any other text is
    taken as unparsable here. *)
Definition sample_Parse (s : string) : Result string parsedURL :=
  if bool_decide (s = "https://connect.example.com") then
    Ok {| U_Scheme := "https"; U_Host := "connect.example.com";
          U_Path := EmptyString; U_RawQuery := EmptyString;
          U_Fragment := EmptyString |}
  else if bool_decide (s = "http://connect.local/api/?debug=1#top") then
    Ok {| U_Scheme := "http"; U_Host := "connect.local";
          U_Path := "/api/"; U_RawQuery := "debug=1"; U_Fragment := "top" |}
  else if bool_decide (s = "connect.example.com") then
    Ok {| U_Scheme := EmptyString; U_Host := EmptyString;
          U_Path := "connect.example.com"; U_RawQuery := EmptyString;
          U_Fragment := EmptyString |}
  else Err "parse error".

Definition sample_built : builtClient :=
  {| bc_baseURL := {| U_Scheme := "http"; U_Host := "connect.local";
                      U_Path := "/api/v1"; U_RawQuery := EmptyString;
                      U_Fragment := EmptyString |};
     bc_httpClient := {| Timeout := 15000000000 |};
     bc_token := "token" |}.

(** Claim C6 as the specification words it: whenever the body of a failing
    response decodes as an error payload, the message of the API error is
    the message member of that payload. *)
Definition message_from_payload_when_present : Prop :=
  forall (roundTrip : httpRequest -> nat -> Result error httpResponse * nat)
         (c : connectClient) (path : string) (query : Values) (st : clientState)
         (resp : httpResponse) (w' : nat) (payload : errorPayload),
    roundTrip (newRequest c path query) (world st) = (Ok resp, w') ->
    ~ success resp ->
    as_payload (Body resp) = Some payload ->
    fst (get roundTrip c path query (Some as_vaults) st)
      = Err (ErrAPI (StatusCode resp) (Payload_Message payload)).

(** * Properties *)

(** ** Facts about the library functions *)

Lemma eqb_byte_val (a c : ascii) :
  Ascii.eqb a c = true <-> byte_val a = byte_val c.
Proof.
  rewrite Ascii.eqb_eq. unfold byte_val. split; [congruence|].
  intros E. rewrite <- (Ascii.ascii_N_embedding a), <- (Ascii.ascii_N_embedding c).
  now rewrite E.
Qed.

Lemma foldEq_solidus (a b : ascii) :
  foldEq a b = true -> Ascii.eqb a "/" = Ascii.eqb b "/".
Proof.
  unfold foldEq. destruct (Ascii.eqb b a) eqn:E.
  - apply Ascii.eqb_eq in E. now subst.
  - intros Hf. apply andb_prop in Hf as [Hf Hhi]. apply andb_prop in Hf as [Hlo1 Hlo2].
    apply N.leb_le in Hlo1, Hlo2. apply N.eqb_eq in Hhi.
    assert (Ha : Ascii.eqb a "/" = false).
    { apply not_true_is_false. rewrite eqb_byte_val. change (byte_val "/") with 47%N.
      destruct (byte_val b <? byte_val a)%N; lia. }
    assert (Hb : Ascii.eqb b "/" = false).
    { apply not_true_is_false. rewrite eqb_byte_val. change (byte_val "/") with 47%N.
      destruct (byte_val b <? byte_val a)%N; lia. }
    now rewrite Ha, Hb.
Qed.

Lemma ascii_EqualFold_solidus (s t : string) :
  ascii_EqualFold s t = true -> hasByte "/" s = hasByte "/" t.
Proof.
  revert t. induction s as [|a s IH]; intros [|b t]; simpl; try discriminate; auto.
  intros Hf. apply andb_prop in Hf as [Hab Hst].
  now rewrite (foldEq_solidus _ _ Hab), (IH _ Hst).
Qed.

Lemma trimRight_idem (s : string) : trimRight (trimRight s) = trimRight s.
Proof.
  induction s as [|c s IH]; simpl; [reflexivity|].
  destruct (trimRight s) as [|d t] eqn:E.
  - destruct (asciiSpace c) eqn:Ec; simpl; [reflexivity|]. now rewrite Ec.
  - change (trimRight (String c (String d t)))
      with (match trimRight (String d t) with
            | EmptyString =>
                if asciiSpace c then EmptyString else String c EmptyString
            | u => String c u
            end).
    now rewrite IH.
Qed.

Lemma trimLeft_head (s : string) :
  trimLeft s = EmptyString
  \/ exists c t, trimLeft s = String c t /\ asciiSpace c = false.
Proof.
  induction s as [|c s IH]; simpl; [now left|].
  destruct (asciiSpace c) eqn:Ec; [exact IH|]. right. eauto.
Qed.

Lemma trimRight_head (c : ascii) (t : string) :
  asciiSpace c = false -> exists u, trimRight (String c t) = String c u.
Proof.
  intros Ec. simpl. destruct (trimRight t); [rewrite Ec|]; eauto.
Qed.

Lemma ascii_TrimSpace_idem (s : string) :
  ascii_TrimSpace (ascii_TrimSpace s) = ascii_TrimSpace s.
Proof.
  unfold ascii_TrimSpace. destruct (trimLeft_head s) as [->|(c & t & -> & Ec)].
  - reflexivity.
  - destruct (trimRight_head c t Ec) as [u Hu].
    rewrite Hu. cbn [trimLeft]. rewrite Ec, <- Hu. apply trimRight_idem.
Qed.

(** The ASCII functions themselves satisfy the interface: on text without
    bytes above 127 they are the library functions. *)
#[export] Instance ascii_strings : GoStrings := {|
  TrimSpace := ascii_TrimSpace;
  EqualFold := ascii_EqualFold;
  TrimSpace_ascii := fun s _ => eq_refl;
  TrimSpace_idem := ascii_TrimSpace_idem;
  EqualFold_ascii := fun s t _ _ => eq_refl;
  EqualFold_solidus := ascii_EqualFold_solidus
|}.

Lemma is_empty_true (s : string) : is_empty s = true <-> s = EmptyString.
Proof. destruct s; simpl; split; congruence. Qed.

Lemma is_empty_false (s : string) : is_empty s = false <-> s <> EmptyString.
Proof. destruct s; simpl; split; congruence. Qed.

Lemma Cut_absent (sep : ascii) (s : string) :
  hasByte sep s = false -> Cut sep s = None.
Proof.
  induction s as [|c s IH]; simpl; [reflexivity|].
  intros Hs. apply orb_false_elim in Hs as [Hc Hs].
  rewrite Hc, (IH Hs). reflexivity.
Qed.

Lemma Cut_first (sep : ascii) (a b : string) :
  hasByte sep a = false -> Cut sep (a +:+ String sep b) = Some (a, b).
Proof.
  induction a as [|c a IH]; simpl.
  - intros _. now rewrite Ascii.eqb_refl.
  - intros Hs. apply orb_false_elim in Hs as [Hc Hs].
    rewrite Hc, (IH Hs). reflexivity.
Qed.

Lemma Cut_Some (sep : ascii) (s a b : string) :
  Cut sep s = Some (a, b) -> s = a +:+ String sep b /\ hasByte sep a = false.
Proof.
  revert a. induction s as [|c s IH]; simpl; [discriminate|].
  intros a. destruct (Ascii.eqb c sep) eqn:E.
  - intros [= <- <-]. apply Ascii.eqb_eq in E. now subst.
  - destruct (Cut sep s) as [[a' b']|]; [|discriminate].
    intros [= <- <-]. destruct (IH a' eq_refl) as [-> Ha].
    simpl. now rewrite E, Ha.
Qed.

Lemma Cut_None (sep : ascii) (s : string) :
  Cut sep s = None -> hasByte sep s = false.
Proof.
  induction s as [|c s IH]; simpl; [reflexivity|].
  destruct (Ascii.eqb c sep); [discriminate|].
  destruct (Cut sep s) as [[a b]|]; [discriminate|]. auto.
Qed.

Lemma Split_Cut_None (sep : ascii) (s : string) :
  Cut sep s = None -> Split sep s = [s].
Proof.
  induction s as [|c s IH]; simpl; [reflexivity|].
  destruct (Ascii.eqb c sep); [discriminate|].
  destruct (Cut sep s) as [[a b]|]; [discriminate|].
  intros _. now rewrite IH.
Qed.

Lemma Split_Cut_Some (sep : ascii) (s a b : string) :
  Cut sep s = Some (a, b) -> Split sep s = a :: Split sep b.
Proof.
  revert a. induction s as [|c s IH]; simpl; [discriminate|].
  intros a. destruct (Ascii.eqb c sep).
  - now intros [= <- <-].
  - destruct (Cut sep s) as [[a' b']|]; [|discriminate].
    intros [= <- <-]. now rewrite (IH a' eq_refl).
Qed.

Lemma Split_nonempty (sep : ascii) (s : string) : Split sep s <> [].
Proof.
  destruct s as [|c s]; simpl; [discriminate|].
  destruct (Ascii.eqb c sep); [discriminate|].
  destruct (Split sep s); discriminate.
Qed.

(** [SplitN] with limit 3 against the unlimited split: the same first two
    components, and fewer than two on the same inputs. *)
Lemma SplitN3_Split (s : string) :
  ((length (SplitN s "/" 3) < 2)%nat <-> (length (Split "/" s) < 2)%nat)
  /\ nth 0 (SplitN s "/" 3) EmptyString = nth 0 (Split "/" s) EmptyString
  /\ ((2 <= length (Split "/" s))%nat ->
      nth 1 (SplitN s "/" 3) EmptyString = nth 1 (Split "/" s) EmptyString).
Proof.
  cbn [SplitN]. destruct (Cut "/" s) as [[a b]|] eqn:E1.
  - rewrite (Split_Cut_Some _ _ _ _ E1).
    pose proof (Split_nonempty "/" b) as Hne.
    destruct (Cut "/" b) as [[a' b']|] eqn:E2.
    + rewrite (Split_Cut_Some _ _ _ _ E2). cbn. repeat split; intros; try lia; auto.
    + rewrite (Split_Cut_None _ _ E2). cbn. repeat split; intros; try lia; auto.
  - rewrite (Split_Cut_None _ _ E1). cbn. repeat split; intros; try lia; auto.
Qed.

Lemma SplitN_length_le (s : string) (sep : ascii) (n : nat) :
  (length (SplitN s sep n) <= n)%nat.
Proof.
  revert s. induction n as [|n IH]; intros s; [simpl; lia|].
  destruct n as [|n]; [simpl; lia|].
  change (SplitN s sep (S (S n)))
    with (match Cut sep s with
          | None => [s]
          | Some (a, b) => a :: SplitN b sep (S n)
          end).
  destruct (Cut sep s) as [[a b]|]; [|simpl; lia].
  specialize (IH b). change (S (length (SplitN b sep (S n))) <= S (S n))%nat. lia.
Qed.

Lemma SplitN3_two (a b : string) :
  hasByte "/" a = false -> hasByte "/" b = false ->
  SplitN (a +:+ String "/" b) "/" 3 = [a; b].
Proof.
  intros Ha Hb. cbn [SplitN]. now rewrite (Cut_first _ _ _ Ha), (Cut_absent _ _ Hb).
Qed.

Lemma SplitN3_three (a b rest : string) :
  hasByte "/" a = false -> hasByte "/" b = false ->
  SplitN (a +:+ String "/" (b +:+ String "/" rest)) "/" 3 = [a; b; rest].
Proof.
  intros Ha Hb. cbn [SplitN]. now rewrite (Cut_first _ _ _ Ha), (Cut_first _ _ _ Hb).
Qed.

(** ** Path parsing *)

Section PathProperties.
Context `{GoStrings}.

Lemma parseSecretPath_parts (path : string) :
  parseSecretPath path =
    match SplitN path "/" 3 with
    | [] | [_] => Err ErrPathFormat
    | [v; i] =>
        if is_empty (TrimSpace v) || is_empty (TrimSpace i)
        then Err ErrEmptyVaultOrItem
        else Ok (TrimSpace v, TrimSpace i, EmptyString)
    | v :: i :: f :: l =>
        if is_empty (TrimSpace v) || is_empty (TrimSpace i)
        then Err ErrEmptyVaultOrItem
        else Ok (TrimSpace v, TrimSpace i,
                 match l with [] => TrimSpace f | _ => EmptyString end)
    end.
Proof.
  unfold parseSecretPath.
  destruct (SplitN path "/" 3) as [|v [|i [|f [|x l]]]]; reflexivity.
Qed.

(** C3. When parsing succeeds the path was split on the solidus into at
    most three components; a path [a/b] with no other solidus yields the
    empty selector, and a path [a/b/rest] yields as selector the whole
    trimmed remainder after the second solidus, whatever [rest] contains,
    further solidi included. *)
Theorem parseSecretPath_selector (path vault item field : string) :
  parseSecretPath path = Ok (vault, item, field) ->
  (length (SplitN path "/" 3) <= 3)%nat
  /\ (forall a b,
        path = a +:+ String "/" b ->
        hasByte "/" a = false -> hasByte "/" b = false ->
        vault = TrimSpace a /\ item = TrimSpace b /\ field = EmptyString)
  /\ (forall a b rest,
        path = a +:+ String "/" (b +:+ String "/" rest) ->
        hasByte "/" a = false -> hasByte "/" b = false ->
        vault = TrimSpace a /\ item = TrimSpace b /\ field = TrimSpace rest).
Proof.
  intros Hok. split; [apply SplitN_length_le|]. split.
  - intros a b -> Ha Hb. rewrite parseSecretPath_parts, (SplitN3_two _ _ Ha Hb) in Hok.
    destruct (is_empty (TrimSpace a) || is_empty (TrimSpace b)); [discriminate|].
    injection Hok as <- <- <-. auto.
  - intros a b rest -> Ha Hb.
    rewrite parseSecretPath_parts, (SplitN3_three _ _ _ Ha Hb) in Hok.
    destruct (is_empty (TrimSpace a) || is_empty (TrimSpace b)); [discriminate|].
    injection Hok as <- <- <-. auto.
Qed.

(** C4. Parsing fails exactly when the path has fewer than two components
    separated by a solidus, or its first or second component is empty once
    trimmed; every failure is a malformed-path error.  A single segment
    fails, and so does a path whose item segment is a blank. *)
Theorem parseSecretPath_malformed (path : string) :
  (is_Err (parseSecretPath path) <->
     (length (Split "/" path) < 2)%nat
     \/ TrimSpace (nth 0 (Split "/" path) EmptyString) = EmptyString
     \/ TrimSpace (nth 1 (Split "/" path) EmptyString) = EmptyString)
  /\ (forall e, parseSecretPath path = Err e -> kind e = MalformedPath)
  /\ parseSecretPath "OnlyVault" = Err ErrPathFormat
  /\ parseSecretPath "Vault/ /Field" = Err ErrEmptyVaultOrItem.
Proof.
  split; [|split; [|split]].
  - destruct (SplitN3_Split path) as (Hlen & H0 & H1).
    rewrite <- Hlen, <- H0. unfold is_Err, parseSecretPath.
    generalize dependent (SplitN path "/" 3). intros parts Hlen H0 H1.
    destruct (length parts <? 2)%nat eqn:El.
    + apply Nat.ltb_lt in El. split; eauto.
    + apply Nat.ltb_ge in El.
      rewrite <- H1 by (destruct (Nat.lt_ge_cases (length (Split "/" path)) 2) as [Hc|Hc];
                        [apply Hlen in Hc; lia | exact Hc]).
      rewrite <- !is_empty_true.
      destruct (is_empty (TrimSpace (nth 0 parts EmptyString)));
        destruct (is_empty (TrimSpace (nth 1 parts EmptyString))); simpl;
        (split; [intros [e He]; first [discriminate He | auto]
                | intros [Hx|[Hx|Hx]]; first [lia | discriminate Hx | eauto]]).
  - intros e. unfold parseSecretPath.
    destruct (length (SplitN path "/" 3) <? 2)%nat; [now intros [= <-]|].
    destruct (is_empty _ || is_empty _); [now intros [= <-]|discriminate].
  - reflexivity.
  - rewrite parseSecretPath_parts.
    change (SplitN "Vault/ /Field" "/" 3) with ["Vault"; " "; "Field"].
    cbv beta iota.
    rewrite (TrimSpace_ascii " ") by reflexivity.
    change (ascii_TrimSpace " ") with EmptyString.
    now rewrite orb_true_r.
Qed.

End PathProperties.

(** ** Field selection *)

(** A loop that appends the selected elements to a slice computes a
    filter. *)
Lemma fold_left_collect {A B : Type} (keep : A -> bool) (g : A -> B)
    (step : list B -> A -> list B) :
  (forall acc x, step acc x = if keep x then acc ++ [g x] else acc) ->
  forall l acc, fold_left step l acc = acc ++ map g (List.filter keep l).
Proof.
  intros Hstep. induction l as [|x l IH]; intros acc; simpl.
  - now rewrite app_nil_r.
  - rewrite IH, Hstep. destruct (keep x); simpl; [|reflexivity].
    now rewrite <- app_assoc.
Qed.

Lemma filter_all_keep {A : Type} (keep : A -> bool) (l : list A) (x : A) :
  In x (List.filter keep l) -> keep x = true.
Proof. intros Hin. now apply List.filter_In in Hin. Qed.

(** Two positions that both pass a filter leave at least two elements. *)
Lemma filter_two {A : Type} (keep : A -> bool) (l : list A) (i j : nat) (x y : A) :
  i <> j -> l !! i = Some x -> l !! j = Some y ->
  keep x = true -> keep y = true ->
  (2 <= length (List.filter keep l))%nat.
Proof.
  revert i j. induction l as [|z l IH]; intros i j Hij Hi Hj Hx Hy; [discriminate|].
  assert (Hone : forall k w, l !! k = Some w -> keep w = true ->
                             (1 <= length (List.filter keep l))%nat).
  { clear. intros k w Hk Hw.
    assert (Hin : In w (List.filter keep l)).
    { apply List.filter_In. split; [|exact Hw].
      apply list_elem_of_In, list_elem_of_lookup. eauto. }
    destruct (List.filter keep l); [destruct Hin | simpl; lia]. }
  destruct i as [|i], j as [|j]; simpl in *; try congruence.
  - injection Hi as ->. rewrite Hx. simpl. specialize (Hone _ _ Hj Hy). lia.
  - injection Hj as ->. rewrite Hy. simpl. specialize (Hone _ _ Hi Hx). lia.
  - assert (Hl : (2 <= length (List.filter keep l))%nat)
      by (apply (IH i j); auto).
    destruct (keep z); simpl; lia.
Qed.

Section SelectionProperties.
Context `{GoStrings}.

Lemma findFieldByLabel_spec (item : fullItem) (label : string) :
  findFieldByLabel item label = unqualified_lookup item (TrimSpace label).
Proof.
  unfold findFieldByLabel, unqualified_lookup.
  rewrite (fold_left_collect (label_candidate (TrimSpace label)) (fun f => f)).
  - now rewrite app_nil_l, map_id.
  - intros acc f. unfold label_candidate.
    destruct (EqualFold _ _); destruct (is_empty _); reflexivity.
Qed.

Lemma defaultPassword_spec (item : fullItem) :
  defaultPassword item =
    match List.filter password_candidate (Item_Fields item) with
    | [f] => Ok (Field_Value f)
    | [] => findFieldByLabel item "password"
    | _ => Err (ErrMultiplePasswords (Item_Title item))
    end.
Proof.
  unfold defaultPassword.
  rewrite (fold_left_collect password_candidate Field_Value).
  - rewrite app_nil_l.
    destruct (List.filter password_candidate (Item_Fields item)) as [|f [|g l]];
      reflexivity.
  - intros acc f. unfold password_candidate.
    destruct (EqualFold _ _); destruct (is_empty _); reflexivity.
Qed.

Lemma sectionIDs_spec (item : fullItem) (sectionLabel : string) :
  fold_left
    (fun (ids : gset string) (section : itemSection) =>
       if EqualFold (Section_Label section) sectionLabel
       then {[ Section_ID section ]} ∪ ids else ids)
    (Item_Sections item) ∅
  = section_ids item sectionLabel.
Proof.
  unfold section_ids.
  assert (Hgen : forall l (acc : gset string),
    fold_left
      (fun (ids : gset string) (section : itemSection) =>
         if EqualFold (Section_Label section) sectionLabel
         then {[ Section_ID section ]} ∪ ids else ids) l acc
    = list_to_set
        (map Section_ID
           (List.filter (fun s => EqualFold (Section_Label s) sectionLabel) l)) ∪ acc).
  { induction l as [|s l IH]; intros acc; simpl.
    - now rewrite (left_id_L ∅ (∪)).
    - rewrite IH. destruct (EqualFold (Section_Label s) sectionLabel); simpl; [|reflexivity].
      rewrite (assoc_L (∪)). f_equal. apply (comm_L (∪)). }
  rewrite Hgen. apply (right_id_L ∅ (∪)).
Qed.

Lemma findFieldInSection_spec (item : fullItem) (sectionLabel fieldLabel : string) :
  findFieldInSection item sectionLabel fieldLabel =
    if decide (section_ids item sectionLabel = ∅)
    then Err (ErrSectionNotFound sectionLabel (Item_Title item))
    else
      match List.filter (section_candidate (section_ids item sectionLabel) fieldLabel)
              (Item_Fields item) with
      | [] => Err (ErrFieldNotInSection fieldLabel sectionLabel)
      | [f] => Ok (Field_Value f)
      | _ => Err (ErrFieldDuplicated fieldLabel sectionLabel)
      end.
Proof.
  unfold findFieldInSection. rewrite sectionIDs_spec.
  destruct (decide (section_ids item sectionLabel = ∅)) as [He|Hne].
  - rewrite He. reflexivity.
  - destruct (size (section_ids item sectionLabel) =? 0)%nat eqn:Es.
    + apply Nat.eqb_eq, size_empty_iff, leibniz_equiv in Es. contradiction.
    + rewrite (fold_left_collect
                 (section_candidate (section_ids item sectionLabel) fieldLabel)
                 (fun f => f)).
      * now rewrite app_nil_l, map_id.
      * intros acc f. unfold section_candidate, label_candidate.
        destruct (Field_Section f) as [sec|]; [|reflexivity].
        destruct (bool_decide _); destruct (EqualFold _ _); destruct (is_empty _);
          reflexivity.
Qed.

Lemma candidate_value_set (keep : itemField -> bool) (l : list itemField) (f : itemField) :
  (forall g, keep g = true -> is_empty (Field_Value g) = false) ->
  In f (List.filter keep l) -> Field_Value f <> EmptyString.
Proof.
  intros Hkeep Hin. apply is_empty_false, Hkeep. eapply filter_all_keep, Hin.
Qed.

Lemma unqualified_lookup_nonempty (item : fullItem) (label value : string) :
  unqualified_lookup item label = Ok value -> value <> EmptyString.
Proof.
  unfold unqualified_lookup.
  destruct (List.filter _ _) as [|f [|g l]] eqn:E; try discriminate.
  intros [= <-]. apply (candidate_value_set (label_candidate label) (Item_Fields item)).
  - intros g Hg. unfold label_candidate in Hg. apply andb_prop in Hg as [_ Hg].
    now apply negb_true_iff in Hg.
  - rewrite E. now left.
Qed.

(** A selector with a solidus is not one of the notes keywords. *)
Lemma solidus_not_notes (selector : string) :
  hasByte "/" selector = true ->
  EqualFold selector "notes" || EqualFold selector "notesPlain" = false.
Proof.
  intros Hs. apply orb_false_intro; apply not_true_is_false; intros Hf;
    apply EqualFold_solidus in Hf; rewrite Hs in Hf; discriminate.
Qed.

Lemma hasByte_app (c : ascii) (a b : string) :
  hasByte c (a +:+ String c b) = true.
Proof.
  induction a as [|d a IH]; simpl.
  - now rewrite Ascii.eqb_refl.
  - rewrite IH. apply orb_true_r.
Qed.

(** Selection for a selector with a solidus: the section part decides
    between the two label lookups. *)
Lemma selectFieldValue_split (item : fullItem) (a b : string) :
  hasByte "/" a = false ->
  selectFieldValue item (a +:+ String "/" b) =
    if negb (is_empty (TrimSpace a))
    then findFieldInSection item (TrimSpace a) (TrimSpace b)
    else findFieldByLabel item (TrimSpace b).
Proof.
  intros Ha. unfold selectFieldValue.
  assert (Hne : is_empty (a +:+ String "/" b) = false) by (now destruct a).
  rewrite Hne, (solidus_not_notes _ (hasByte_app "/" a b)).
  unfold splitQualifiedLabel. cbn [SplitN]. rewrite (Cut_first _ _ _ Ha).
  reflexivity.
Qed.

(** C1. With the empty selector the password candidates are the fields
    whose purpose is PASSWORD in any case and whose value is set: exactly
    one candidate gives its value, more than one gives an ambiguity error,
    and none falls back to the unqualified lookup of the label password. *)
Theorem selectFieldValue_default_password (item : fullItem) :
  let candidates := List.filter password_candidate (Item_Fields item) in
  (length candidates = 1%nat ->
     exists f, candidates = [f]
               /\ selectFieldValue item EmptyString = Ok (Field_Value f))
  /\ ((1 < length candidates)%nat ->
      selectFieldValue item EmptyString = Err (ErrMultiplePasswords (Item_Title item))
      /\ kind (ErrMultiplePasswords (Item_Title item)) = AmbiguousField)
  /\ (length candidates = 0%nat ->
      selectFieldValue item EmptyString = findFieldByLabel item "password"
      /\ selectFieldValue item EmptyString = unqualified_lookup item "password").
Proof.
  intros candidates. unfold selectFieldValue. cbn [is_empty].
  rewrite defaultPassword_spec. fold candidates.
  assert (Hpw : TrimSpace "password" = "password")
    by (now rewrite TrimSpace_ascii by reflexivity).
  destruct candidates as [|f [|g l]]; cbn [length];
    (split; [|split]); intros Hl; try lia; try discriminate; eauto.
  split; [reflexivity|]. rewrite findFieldByLabel_spec. now rewrite Hpw.
Qed.

(** C7. A successful selection never yields the empty string. *)
Theorem selectFieldValue_nonempty (item : fullItem) (selector value : string) :
  selectFieldValue item selector = Ok value -> value <> EmptyString.
Proof.
  unfold selectFieldValue. destruct (is_empty selector).
  - rewrite defaultPassword_spec.
    destruct (List.filter password_candidate _) as [|f [|g l]] eqn:E; try discriminate.
    + rewrite findFieldByLabel_spec. apply unqualified_lookup_nonempty.
    + intros [= <-].
      apply (candidate_value_set password_candidate (Item_Fields item)).
      * intros g Hg. unfold password_candidate in Hg.
        apply andb_prop in Hg as [_ Hg]. now apply negb_true_iff in Hg.
      * rewrite E. now left.
  - destruct (EqualFold selector "notes" || EqualFold selector "notesPlain").
    + destruct (is_empty (Item_NotesPlain item)) eqn:En; [discriminate|].
      intros [= <-]. now apply is_empty_false.
    + destruct (splitQualifiedLabel selector) as [sectionName fieldLabel].
      destruct (negb (is_empty sectionName)).
      * rewrite findFieldInSection_spec. destruct (decide _); [discriminate|].
        destruct (List.filter _ _) as [|f [|g l]] eqn:E; try discriminate.
        intros [= <-].
        apply (candidate_value_set
                 (section_candidate (section_ids item sectionName) fieldLabel)
                 (Item_Fields item)).
        -- intros g Hg. unfold section_candidate, label_candidate in Hg.
           apply andb_prop in Hg as [_ Hg]. apply andb_prop in Hg as [_ Hg].
           now apply negb_true_iff in Hg.
        -- rewrite E. now left.
      * rewrite findFieldByLabel_spec. apply unqualified_lookup_nonempty.
Qed.

Lemma elem_of_section_ids (item : fullItem) (sectionLabel id : string) :
  id ∈ section_ids item sectionLabel <->
  exists s, In s (Item_Sections item)
            /\ EqualFold (Section_Label s) sectionLabel = true
            /\ Section_ID s = id.
Proof.
  unfold section_ids. rewrite elem_of_list_to_set, list_elem_of_In, List.in_map_iff.
  split.
  - intros (s & Hid & Hin). apply List.filter_In in Hin as [Hin Hs]. eauto.
  - intros (s & Hin & Hs & Hid). exists s. split; [exact Hid|].
    apply List.filter_In. auto.
Qed.

(** C2. A selector [a/b] whose section part is not blank is looked up in
    the sections: the ids of all sections carrying the section label are
    collected; without any the section is not found; the matches are the
    fields that refer to one of these ids, carry the field label and have
    a value; none, one and several matches give field-not-found, the value
    and an ambiguity error.  Two sections sharing the label, each holding a
    matching field, therefore give the ambiguity error. *)
Theorem selectFieldValue_section_qualified (item : fullItem) (a b : string) :
  hasByte "/" a = false -> TrimSpace a <> EmptyString ->
  let selector := a +:+ String "/" b in
  let sectionPart := TrimSpace a in
  let fieldLabel := TrimSpace b in
  let ids := section_ids item sectionPart in
  let matches := List.filter (section_candidate ids fieldLabel) (Item_Fields item) in
  (forall id, id ∈ ids <->
              exists s, In s (Item_Sections item)
                        /\ EqualFold (Section_Label s) sectionPart = true
                        /\ Section_ID s = id)
  /\ (ids = ∅ ->
      selectFieldValue item selector
        = Err (ErrSectionNotFound sectionPart (Item_Title item))
      /\ kind (ErrSectionNotFound sectionPart (Item_Title item)) = SectionNotFound)
  /\ (ids <> ∅ -> length matches = 0%nat ->
      selectFieldValue item selector = Err (ErrFieldNotInSection fieldLabel sectionPart)
      /\ kind (ErrFieldNotInSection fieldLabel sectionPart) = FieldNotFound)
  /\ (ids <> ∅ -> length matches = 1%nat ->
      exists f, matches = [f] /\ selectFieldValue item selector = Ok (Field_Value f))
  /\ (ids <> ∅ -> (1 < length matches)%nat ->
      selectFieldValue item selector = Err (ErrFieldDuplicated fieldLabel sectionPart)
      /\ kind (ErrFieldDuplicated fieldLabel sectionPart) = AmbiguousField)
  /\ (forall s1 s2 i j f1 f2,
        In s1 (Item_Sections item) -> In s2 (Item_Sections item) ->
        EqualFold (Section_Label s1) sectionPart = true ->
        EqualFold (Section_Label s2) sectionPart = true ->
        i <> j ->
        Item_Fields item !! i = Some f1 -> Item_Fields item !! j = Some f2 ->
        Field_Section f1 = Some {| FieldSection_ID := Section_ID s1 |} ->
        Field_Section f2 = Some {| FieldSection_ID := Section_ID s2 |} ->
        label_candidate fieldLabel f1 = true ->
        label_candidate fieldLabel f2 = true ->
        selectFieldValue item selector
          = Err (ErrFieldDuplicated fieldLabel sectionPart)).
Proof.
  intros Ha Hsec selector sectionPart fieldLabel ids matches.
  assert (Hsel : selectFieldValue item selector =
                 if decide (ids = ∅)
                 then Err (ErrSectionNotFound sectionPart (Item_Title item))
                 else match matches with
                      | [] => Err (ErrFieldNotInSection fieldLabel sectionPart)
                      | [f] => Ok (Field_Value f)
                      | _ => Err (ErrFieldDuplicated fieldLabel sectionPart)
                      end).
  { unfold selector. rewrite (selectFieldValue_split item a b Ha).
    apply is_empty_false in Hsec. rewrite Hsec. cbn [negb].
    apply findFieldInSection_spec. }
  rewrite Hsel. split; [apply elem_of_section_ids|].
  destruct (decide (ids = ∅)) as [He|Hne].
  - repeat (split; try (intros; congruence)).
    intros s1 s2 i j f1 f2 Hs1 _ Hl1 _ _ _ _ _ _ _ _. exfalso.
    assert (Hin : Section_ID s1 ∈ ids) by (apply elem_of_section_ids; eauto).
    rewrite He in Hin. now apply not_elem_of_empty in Hin.
  - split; [intros; congruence|].
    split; [|split; [|split]].
    + intros _ Hl. destruct matches as [|f l]; [auto|discriminate].
    + intros _ Hl. destruct matches as [|f [|g l]]; try discriminate. eauto.
    + intros _ Hl. destruct matches as [|f [|g l]]; cbn [length] in Hl; try lia. auto.
    + intros s1 s2 i j f1 f2 Hs1 Hs2 Hl1 Hl2 Hij Hi Hj Hf1 Hf2 Hc1 Hc2.
      assert (Hk : forall s f, In s (Item_Sections item) ->
                     EqualFold (Section_Label s) sectionPart = true ->
                     Field_Section f = Some {| FieldSection_ID := Section_ID s |} ->
                     label_candidate fieldLabel f = true ->
                     section_candidate ids fieldLabel f = true).
      { intros s f Hs Hl Hf Hc. unfold section_candidate. rewrite Hf, Hc.
        cbn [FieldSection_ID]. rewrite bool_decide_eq_true_2; [reflexivity|].
        apply elem_of_section_ids. eauto. }
      pose proof (filter_two (section_candidate ids fieldLabel) (Item_Fields item)
                    i j f1 f2 Hij Hi Hj
                    (Hk _ _ Hs1 Hl1 Hf1 Hc1) (Hk _ _ Hs2 Hl2 Hf2 Hc2)) as Htwo.
      fold matches in Htwo.
      destruct matches as [|f [|g l]]; cbn [length] in Htwo; try lia. reflexivity.
Qed.

(** C10. A selector [a/b] whose part before the first solidus is blank is
    an unqualified lookup of the label after the solidus over all the
    fields of the item; no section lookup takes place and no
    section-not-found error can come out. *)
Theorem selectFieldValue_blank_section (item : fullItem) (a b : string) :
  hasByte "/" a = false -> TrimSpace a = EmptyString ->
  let selector := a +:+ String "/" b in
  selector <> EmptyString
  /\ selectFieldValue item selector = findFieldByLabel item b
  /\ selectFieldValue item selector = unqualified_lookup item (TrimSpace b)
  /\ (forall e, selectFieldValue item selector = Err e -> kind e <> SectionNotFound).
Proof.
  intros Ha Hblank selector.
  assert (Hsel : selectFieldValue item selector = unqualified_lookup item (TrimSpace b)).
  { unfold selector. rewrite (selectFieldValue_split item a b Ha), Hblank. cbn.
    now rewrite findFieldByLabel_spec, TrimSpace_idem. }
  split; [unfold selector; now destruct a|].
  split; [now rewrite Hsel, findFieldByLabel_spec|].
  split; [exact Hsel|].
  intros e. rewrite Hsel. unfold unqualified_lookup.
  destruct (List.filter _ _) as [|f [|g l]]; intros [= <-]; discriminate.
Qed.

End SelectionProperties.

(** ** The ASCII functions stand for the library on ASCII data

    On a path, a selector and an item without bytes above 127 every
    implementation of the interface computes what the ASCII functions
    compute: the runs on the sample data below are runs of the package. *)

Lemma isASCII_app (a b : string) :
  isASCII (a +:+ b) = isASCII a && isASCII b.
Proof.
  induction a as [|c a IH]; simpl; [reflexivity|]. now rewrite IH, andb_assoc.
Qed.

Lemma trimLeft_isASCII (s : string) : isASCII s = true -> isASCII (trimLeft s) = true.
Proof.
  induction s as [|c s IH]; simpl; [reflexivity|].
  intros Hs. destruct (asciiSpace c); [|exact Hs].
  apply andb_prop in Hs as [_ Hs]. auto.
Qed.

Lemma trimRight_isASCII (s : string) : isASCII s = true -> isASCII (trimRight s) = true.
Proof.
  induction s as [|c s IH]; simpl; [reflexivity|].
  intros Hs. apply andb_prop in Hs as [Hc Hs]. specialize (IH Hs).
  destruct (trimRight s) as [|d t].
  - destruct (asciiSpace c); simpl; [reflexivity|]. now rewrite Hc.
  - cbn [isASCII] in *. now rewrite Hc, IH.
Qed.

Lemma ascii_TrimSpace_isASCII (s : string) :
  isASCII s = true -> isASCII (ascii_TrimSpace s) = true.
Proof. intros Hs. now apply trimRight_isASCII, trimLeft_isASCII. Qed.

Lemma Cut_isASCII (sep : ascii) (s a b : string) :
  Cut sep s = Some (a, b) -> isASCII s = true ->
  isASCII a = true /\ isASCII b = true.
Proof.
  intros Hc Hs. apply Cut_Some in Hc as [-> _].
  rewrite isASCII_app in Hs. cbn [isASCII] in Hs.
  apply andb_prop in Hs as [Ha Hb]. apply andb_prop in Hb as [_ Hb]. auto.
Qed.

Lemma fold_left_ext_in {A B : Type} (f g : B -> A -> B) (l : list A) (acc : B) :
  (forall b x, In x l -> f b x = g b x) -> fold_left f l acc = fold_left g l acc.
Proof.
  revert acc. induction l as [|x l IH]; intros acc Hfg; simpl; [reflexivity|].
  rewrite (Hfg acc x) by now left. apply IH. intros b y Hy. apply Hfg. now right.
Qed.

Section Adequacy.
Context (G : GoStrings).

Lemma TrimSpace_agree (s : string) :
  isASCII s = true ->
  @TrimSpace G s = ascii_TrimSpace s /\ isASCII (@TrimSpace G s) = true.
Proof.
  intros Hs. rewrite (TrimSpace_ascii s Hs). split; [reflexivity|].
  now apply ascii_TrimSpace_isASCII.
Qed.

Lemma parseSecretPath_agree (path : string) :
  isASCII path = true ->
  @parseSecretPath G path = @parseSecretPath ascii_strings path.
Proof.
  intros Hp. rewrite !parseSecretPath_parts. cbn [SplitN TrimSpace ascii_strings].
  destruct (Cut "/" path) as [[a b]|] eqn:E1; [|reflexivity].
  destruct (Cut_isASCII _ _ _ _ E1 Hp) as [Ha Hb].
  destruct (Cut "/" b) as [[b1 b2]|] eqn:E2.
  - destruct (Cut_isASCII _ _ _ _ E2 Hb) as [Hb1 Hb2].
    now rewrite (TrimSpace_ascii a Ha), (TrimSpace_ascii b1 Hb1), (TrimSpace_ascii b2 Hb2).
  - now rewrite (TrimSpace_ascii a Ha), (TrimSpace_ascii b Hb).
Qed.

Lemma findFieldByLabel_agree (item : fullItem) (label : string) :
  ascii_item item -> isASCII label = true ->
  @findFieldByLabel G item label = @findFieldByLabel ascii_strings item label.
Proof.
  intros [Hf _] Hl. unfold findFieldByLabel. cbn [TrimSpace EqualFold ascii_strings].
  destruct (TrimSpace_agree label Hl) as [-> Ht].
  rewrite (fold_left_ext_in _
             (fun (matches : list itemField) (field : itemField) =>
                if negb (ascii_EqualFold (Field_Label field) (ascii_TrimSpace label))
                then matches
                else if is_empty (Field_Value field) then matches
                else matches ++ [field])); [reflexivity|].
  intros acc f Hin. rewrite Forall_forall in Hf.
  destruct (Hf f (proj2 (list_elem_of_In _ _) Hin)) as [Hlab _].
  now rewrite (EqualFold_ascii _ _ Hlab (ascii_TrimSpace_isASCII _ Hl)).
Qed.

Lemma defaultPassword_agree (item : fullItem) :
  ascii_item item ->
  @defaultPassword G item = @defaultPassword ascii_strings item.
Proof.
  intros Hitem. pose proof Hitem as [Hf _].
  unfold defaultPassword. cbn [EqualFold ascii_strings].
  rewrite (fold_left_ext_in _
             (fun (matches : list string) (field : itemField) =>
                if negb (ascii_EqualFold (Field_Purpose field) "PASSWORD") then matches
                else if is_empty (Field_Value field) then matches
                else matches ++ [Field_Value field])).
  - now rewrite (findFieldByLabel_agree item "password" Hitem eq_refl).
  - intros acc f Hin. rewrite Forall_forall in Hf.
    destruct (Hf f (proj2 (list_elem_of_In _ _) Hin)) as [_ Hpur].
    now rewrite (EqualFold_ascii _ "PASSWORD" Hpur eq_refl).
Qed.

Lemma findFieldInSection_agree (item : fullItem) (sectionLabel fieldLabel : string) :
  ascii_item item -> isASCII sectionLabel = true -> isASCII fieldLabel = true ->
  @findFieldInSection G item sectionLabel fieldLabel
    = @findFieldInSection ascii_strings item sectionLabel fieldLabel.
Proof.
  intros [Hf Hs] Hsl Hfl. unfold findFieldInSection. cbn [EqualFold ascii_strings].
  rewrite Forall_forall in Hf. rewrite Forall_forall in Hs.
  rewrite (fold_left_ext_in _
             (fun (ids : gset string) (section : itemSection) =>
                if ascii_EqualFold (Section_Label section) sectionLabel
                then {[ Section_ID section ]} ∪ ids else ids)).
  2:{ intros acc x Hin.
      now rewrite (EqualFold_ascii _ _ (Hs x (proj2 (list_elem_of_In _ _) Hin)) Hsl). }
  destruct (size _ =? 0)%nat; [reflexivity|].
  match goal with
  | |- match fold_left ?f _ _ with _ => _ end = match fold_left ?g _ _ with _ => _ end =>
      rewrite (fold_left_ext_in f g); [reflexivity|]
  end.
  intros acc x Hin. cbv beta.
  destruct (Hf x (proj2 (list_elem_of_In _ _) Hin)) as [Hlab _].
  now rewrite (EqualFold_ascii _ _ Hlab Hfl).
Qed.

Lemma selectFieldValue_agree (item : fullItem) (selector : string) :
  ascii_item item -> isASCII selector = true ->
  @selectFieldValue G item selector = @selectFieldValue ascii_strings item selector.
Proof.
  intros Hitem Hsel. unfold selectFieldValue.
  rewrite (defaultPassword_agree item Hitem).
  rewrite (EqualFold_ascii selector "notes" Hsel eq_refl),
          (EqualFold_ascii selector "notesPlain" Hsel eq_refl).
  cbn [EqualFold ascii_strings].
  destruct (is_empty selector); [reflexivity|].
  destruct (ascii_EqualFold selector "notes" || ascii_EqualFold selector "notesPlain");
    [reflexivity|].
  unfold splitQualifiedLabel. cbn [SplitN TrimSpace ascii_strings].
  destruct (Cut "/" selector) as [[a b]|] eqn:E.
  - destruct (Cut_isASCII _ _ _ _ E Hsel) as [Ha Hb].
    cbn [length Nat.eqb nth]. cbv beta iota.
    destruct (TrimSpace_agree a Ha) as [-> Hta].
    destruct (TrimSpace_agree b Hb) as [-> Htb].
    destruct (negb (is_empty (ascii_TrimSpace a))).
    + apply findFieldInSection_agree; auto using ascii_TrimSpace_isASCII.
    + apply findFieldByLabel_agree; auto using ascii_TrimSpace_isASCII.
  - cbn [length Nat.eqb nth]. cbv beta iota.
    destruct (TrimSpace_agree selector Hsel) as [-> Hts].
    apply findFieldByLabel_agree; auto using ascii_TrimSpace_isASCII.
Qed.

End Adequacy.

(** ** Escaping *)

Lemma escapeFilterValue_cons (c : ascii) (s : string) :
  escapeFilterValue (String c s) =
    if Ascii.eqb c "\" then String "\" (String "\" (escapeFilterValue s))
    else if Ascii.eqb c dquote then String "\" (String dquote (escapeFilterValue s))
    else String c (escapeFilterValue s).
Proof.
  unfold escapeFilterValue. cbn [ReplaceAll].
  destruct (Ascii.eqb c "\") eqn:Eb.
  - reflexivity.
  - cbn [ReplaceAll]. destruct (Ascii.eqb c dquote); reflexivity.
Qed.

(** The filter escaping is recoverable: reading a backslash as making the
    next byte literal gives the value back. *)
Lemma unescape_escapeFilterValue (s : string) :
  unescapeFilterValue (escapeFilterValue s) = s.
Proof.
  induction s as [|c s IH]; [reflexivity|].
  rewrite escapeFilterValue_cons.
  destruct (Ascii.eqb c "\") eqn:Eb.
  - apply Ascii.eqb_eq in Eb. subst c. cbn. now rewrite IH.
  - destruct (Ascii.eqb c dquote) eqn:Eq.
    + apply Ascii.eqb_eq in Eq. subst c. cbn. now rewrite IH.
    + cbn [unescapeFilterValue]. now rewrite Eb, IH.
Qed.

Lemma escapeFilterValue_injective (s t : string) :
  escapeFilterValue s = escapeFilterValue t -> s = t.
Proof.
  intros E. rewrite <- (unescape_escapeFilterValue s), <- (unescape_escapeFilterValue t).
  now rewrite E.
Qed.

(** What a [%XX] triple decodes to is the byte that was escaped. *)
Lemma unhex_upperhex (c : ascii) :
  ishex (upperhex (N.shiftr (byte_val c) 4)) = true
  /\ ishex (upperhex (N.land (byte_val c) 15)) = true
  /\ Ascii.ascii_of_N
       (N.lor (N.shiftl (unhex (upperhex (N.shiftr (byte_val c) 4))) 4)
              (unhex (upperhex (N.land (byte_val c) 15)))) = c.
Proof.
  destruct c as [[] [] [] [] [] [] [] []]; vm_compute; auto.
Qed.

Lemma unescape_escape_path (s : string) :
  PathUnescape (PathEscape s) = Some s.
Proof.
  unfold PathUnescape, PathEscape. induction s as [|c s IH]; [reflexivity|].
  cbn [escape]. destruct (shouldEscape c encodePathSegment) eqn:Esc.
  - destruct (unhex_upperhex c) as (H1 & H2 & H3).
    cbn [unescape]. change (Ascii.eqb "%" "%") with true. cbv iota.
    now rewrite H1, H2, IH, H3.
  - cbn [unescape].
    assert (Hp : Ascii.eqb c "%" = false).
    { destruct (Ascii.eqb c "%") eqn:E; [|reflexivity].
      apply Ascii.eqb_eq in E. subst c. discriminate Esc. }
    rewrite Hp, IH. destruct (Ascii.eqb c "+") eqn:E; [|reflexivity].
    apply Ascii.eqb_eq in E. now subst c.
Qed.

(** The filter expression survives the query string. *)
Lemma unescape_escape_query (s : string) :
  QueryUnescape (QueryEscape s) = Some s.
Proof.
  unfold QueryUnescape, QueryEscape. induction s as [|c s IH]; [reflexivity|].
  cbn [escape]. destruct (Ascii.eqb c " ") eqn:Esp.
  - apply Ascii.eqb_eq in Esp. subst c. cbn [unescape].
    change (Ascii.eqb "+" "%") with false. change (Ascii.eqb "+" "+") with true.
    cbv iota. now rewrite IH.
  - destruct (shouldEscape c encodeQueryComponent) eqn:Esc.
    + destruct (unhex_upperhex c) as (H1 & H2 & H3).
      cbn [unescape]. change (Ascii.eqb "%" "%") with true. cbv iota.
      now rewrite H1, H2, IH, H3.
    + cbn [unescape].
      assert (Hp : Ascii.eqb c "%" = false).
      { destruct (Ascii.eqb c "%") eqn:E; [|reflexivity].
        apply Ascii.eqb_eq in E. subst c. discriminate Esc. }
      assert (Hplus : Ascii.eqb c "+" = false).
      { destruct (Ascii.eqb c "+") eqn:E; [|reflexivity].
        apply Ascii.eqb_eq in E. subst c. discriminate Esc. }
      now rewrite Hp, IH, Hplus.
Qed.

Lemma ReplaceAll_absent (s : string) (old : ascii) (new : string) :
  hasByte old s = false -> ReplaceAll s old new = s.
Proof.
  induction s as [|c s IH]; simpl; [reflexivity|].
  intros Hs. apply orb_false_elim in Hs as [Hc Hs]. now rewrite Hc, IH.
Qed.

Lemma upperhex_not_plus (n : N) : Ascii.eqb (upperhex n) "+" = false.
Proof.
  unfold upperhex. destruct n as [|p]; [reflexivity|].
  repeat (destruct p as [p|p|]; try reflexivity).
Qed.

Lemma PathEscape_no_plus (s : string) :
  hasByte "+" s = false -> hasByte "+" (PathEscape s) = false.
Proof.
  unfold PathEscape. induction s as [|c s IH]; simpl; [reflexivity|].
  intros Hs. apply orb_false_elim in Hs as [Hc Hs].
  destruct (shouldEscape c encodePathSegment); simpl.
  - now rewrite !upperhex_not_plus, IH.
  - now rewrite Hc, IH.
Qed.

(** X1. The filter escaping preserves the value: unescaping gives it
    back, so two values with the same escaped form are equal. *)
Theorem escapeFilterValue_preserves (s : string) :
  unescapeFilterValue (escapeFilterValue s) = s
  /\ (forall t, escapeFilterValue s = escapeFilterValue t -> s = t).
Proof.
  split; [apply unescape_escapeFilterValue|]. intros t. apply escapeFilterValue_injective.
Qed.

(** X2. Away from the plus sign the path escaping preserves the
    identifier: the segment decodes back to it. *)
Theorem escapePathSegment_roundtrip (s : string) :
  hasByte "+" s = false -> PathUnescape (escapePathSegment s) = Some s.
Proof.
  intros Hs. unfold escapePathSegment.
  rewrite (ReplaceAll_absent _ _ _ (PathEscape_no_plus s Hs)).
  apply unescape_escape_path.
Qed.

(** ** The client *)

Section ClientProperties.
Context {W : Type} (roundTrip : httpRequest -> W -> Result error httpResponse * W).

Lemma success_test (resp : httpResponse) :
  (200 <=? StatusCode resp) && (StatusCode resp <? 300) = true <-> success resp.
Proof. unfold success. rewrite andb_true_iff, Z.leb_le, Z.ltb_lt. tauto. Qed.

Lemma get_decoded {A : Type} (c : connectClient) (path : string) (query : Values)
    (decode : jsonBody -> option A) (st : clientState)
    (resp : httpResponse) (w' : W) (a : A) :
  roundTrip (newRequest c path query) (world st) = (Ok resp, w') ->
  success resp -> decode (Body resp) = Some a ->
  get roundTrip c path query (Some decode) st
    = (Ok (Some a), after st (newRequest c path query) w').
Proof.
  intros Hrt Hs Hd. unfold get. rewrite Hrt.
  apply success_test in Hs. now rewrite Hs, Hd.
Qed.

Lemma get_failure {A : Type} (c : connectClient) (path : string) (query : Values)
    (out : option (jsonBody -> option A)) (st : clientState)
    (resp : httpResponse) (w' : W) :
  roundTrip (newRequest c path query) (world st) = (Ok resp, w') ->
  ~ success resp ->
  get roundTrip c path query out st
    = (Err (ErrAPI (StatusCode resp)
              match as_payload (Body resp) with
              | Some payload =>
                  if negb (is_empty (Payload_Message payload))
                  then Payload_Message payload else Status resp
              | None => Status resp
              end),
       after st (newRequest c path query) w').
Proof.
  intros Hrt Hs. unfold get. rewrite Hrt.
  destruct ((200 <=? StatusCode resp) && (StatusCode resp <? 300)) eqn:E.
  - now apply success_test in E.
  - reflexivity.
Qed.

(** C5. When the store answers the filtered list query with a list of
    matches, [findVaultByName] and [findItemByTitle] return a match exactly
    when the list has one element, and that element; an empty list is a
    not-found error naming the vault or item, a longer list an ambiguity
    error. *)
Theorem find_exactly_one (c : connectClient) (st : clientState) :
  (forall name resp w' vaults,
      roundTrip (newRequest c "vaults" [("filter", [buildEqualsFilter "name" name])])
        (world st) = (Ok resp, w') ->
      success resp -> as_vaults (Body resp) = Some vaults ->
      let r := fst (findVaultByName roundTrip c name st) in
      (forall v, r = Ok v <-> vaults = [v])
      /\ (vaults = [] ->
          r = Err (ErrVaultNotFound name) /\ kind (ErrVaultNotFound name) = VaultNotFound)
      /\ ((1 < length vaults)%nat ->
          r = Err (ErrMultipleVaults name)
          /\ kind (ErrMultipleVaults name) = AmbiguousVault))
  /\ (forall vaultID title resp w' items,
      roundTrip (newRequest c ("vaults/" +:+ escapePathSegment vaultID +:+ "/items")
                   [("filter", [buildEqualsFilter "title" title])])
        (world st) = (Ok resp, w') ->
      success resp -> as_items (Body resp) = Some items ->
      let r := fst (findItemByTitle roundTrip c vaultID title st) in
      (forall i, r = Ok i <-> items = [i])
      /\ (items = [] ->
          r = Err (ErrItemNotFound title vaultID)
          /\ kind (ErrItemNotFound title vaultID) = ItemNotFound)
      /\ ((1 < length items)%nat ->
          r = Err (ErrMultipleItems title vaultID)
          /\ kind (ErrMultipleItems title vaultID) = AmbiguousItem)).
Proof.
  split.
  - intros name resp w' vaults Hrt Hs Hd r.
    assert (Hr : r = match vaults with
                     | [] => Err (ErrVaultNotFound name)
                     | [v] => Ok v
                     | _ => Err (ErrMultipleVaults name)
                     end).
    { unfold r, findVaultByName, mbind, M_bind.
      rewrite (get_decoded _ _ _ _ _ _ _ _ Hrt Hs Hd). cbn [default].
      now destruct vaults as [|v [|v' l]]. }
    rewrite Hr. destruct vaults as [|v [|v' l]]; cbn [length];
      (split; [intros x; split; congruence|]);
      (split; intros Hx; first [discriminate Hx | lia | auto]).
  - intros vaultID title resp w' items Hrt Hs Hd r.
    assert (Hr : r = match items with
                     | [] => Err (ErrItemNotFound title vaultID)
                     | [i] => Ok i
                     | _ => Err (ErrMultipleItems title vaultID)
                     end).
    { unfold r, findItemByTitle, mbind, M_bind.
      rewrite (get_decoded _ _ _ _ _ _ _ _ Hrt Hs Hd). cbn [default].
      now destruct items as [|i [|i' l]]. }
    rewrite Hr. destruct items as [|i [|i' l]]; cbn [length];
      (split; [intros x; split; congruence|]);
      (split; intros Hx; first [discriminate Hx | lia | auto]).
Qed.

(** C6, amended.  A response whose status is outside 200..299 becomes an
    API error carrying that status; its message is the message member of
    the decoded error payload when the body decodes and that member is not
    empty, and the status line otherwise.  A response with a status in
    200..299 never becomes an API error. *)
Theorem get_api_error {A : Type} (c : connectClient) (path : string) (query : Values)
    (out : option (jsonBody -> option A)) (st : clientState)
    (resp : httpResponse) (w' : W) :
  roundTrip (newRequest c path query) (world st) = (Ok resp, w') ->
  let r := fst (get roundTrip c path query out st) in
  (~ success resp ->
     exists message,
       r = Err (ErrAPI (StatusCode resp) message)
       /\ (forall payload,
             as_payload (Body resp) = Some payload ->
             Payload_Message payload <> EmptyString ->
             message = Payload_Message payload)
       /\ (forall payload,
             as_payload (Body resp) = Some payload ->
             Payload_Message payload = EmptyString ->
             message = Status resp)
       /\ (as_payload (Body resp) = None -> message = Status resp))
  /\ (success resp -> forall code message, r <> Err (ErrAPI code message)).
Proof.
  intros Hrt r. split.
  - intros Hs. unfold r. rewrite (get_failure _ _ _ _ _ _ _ Hrt Hs). cbn [fst].
    eexists. split; [reflexivity|].
    destruct (as_payload (Body resp)) as [p|].
    + split; [|split].
      * intros payload [= <-] Hne. apply is_empty_false in Hne. now rewrite Hne.
      * intros payload [= <-] He. apply is_empty_true in He. now rewrite He.
      * discriminate.
    + split; [|split]; try discriminate. reflexivity.
  - intros Hs code message. unfold r, get. rewrite Hrt.
    apply success_test in Hs. rewrite Hs.
    destruct out as [decode|]; [destruct (decode (Body resp))|]; discriminate.
Qed.

End ClientProperties.

(** ** Resolution *)

Section FindProperties.
Context {W : Type} (roundTrip : httpRequest -> W -> Result error httpResponse * W).
Context `{GoStrings}.

(** C9. A nil request and a request with an empty name are rejected at
    once: the client state, with the list of requests sent, is unchanged,
    and the path plays no part.  A successful resolution returns the
    requested name together with the value selected from the item that was
    fetched for the parsed path; what is sent, what is fetched and what is
    selected do not depend on the name. *)
Theorem Find_request (c : connectClient) (st : clientState) :
  (Find roundTrip c None st = (Err ErrNilRequest, st)
   /\ kind ErrNilRequest = InvalidRequest)
  /\ ((forall path,
         Find roundTrip c (Some {| Req_Name := EmptyString; Req_Path := path |}) st
           = (Err ErrEmptyName, st))
      /\ kind ErrEmptyName = InvalidRequest)
  /\ (forall req secret st',
        Find roundTrip c (Some req) st = (Ok secret, st') ->
        Secret_Name secret = Req_Name req
        /\ exists vaultName itemTitle selector vault summary item st1 st2,
             parseSecretPath (Req_Path req) = Ok (vaultName, itemTitle, selector)
             /\ findVaultByName roundTrip c vaultName st = (Ok vault, st1)
             /\ findItemByTitle roundTrip c (Vault_ID vault) itemTitle st1
                  = (Ok summary, st2)
             /\ getItem roundTrip c (Vault_ID vault) (Summary_ID summary) st2
                  = (Ok item, st')
             /\ selectFieldValue item selector = Ok (Secret_Data secret))
  /\ (forall name1 name2 path,
        name1 <> EmptyString -> name2 <> EmptyString ->
        let run name :=
          Find roundTrip c (Some {| Req_Name := name; Req_Path := path |}) st in
        snd (run name1) = snd (run name2)
        /\ match fst (run name1), fst (run name2) with
           | Ok s1, Ok s2 => Secret_Data s1 = Secret_Data s2
           | Err e1, Err e2 => e1 = e2
           | _, _ => False
           end).
Proof.
  split; [split; reflexivity|]. split; [split; reflexivity|]. split.
  - intros req secret st'. unfold Find.
    destruct (is_empty (Req_Name req)); [discriminate|].
    destruct (parseSecretPath (Req_Path req)) as [[[vaultName itemTitle] selector]|e];
      [|discriminate].
    unfold mbind, M_bind, mret, M_ret.
    destruct (findVaultByName roundTrip c vaultName st) as [[vault|e] st1] eqn:Ev;
      [|discriminate].
    destruct (findItemByTitle roundTrip c (Vault_ID vault) itemTitle st1)
      as [[summary|e] st2] eqn:Ei; [|discriminate].
    destruct (getItem roundTrip c (Vault_ID vault) (Summary_ID summary) st2)
      as [[item|e] st3] eqn:Eg; [|discriminate].
    destruct (selectFieldValue item selector) as [value|e] eqn:Es; [|discriminate].
    intros [= <- <-]. split; [reflexivity|].
    exists vaultName, itemTitle, selector, vault, summary, item, st1, st2. auto.
  - intros name1 name2 path Hn1 Hn2 run. unfold run, Find. cbn [Req_Name Req_Path].
    apply is_empty_false in Hn1, Hn2. rewrite Hn1, Hn2.
    destruct (parseSecretPath path) as [[[vaultName itemTitle] selector]|e];
      [|now split].
    unfold mbind, M_bind, mret, M_ret.
    destruct (findVaultByName roundTrip c vaultName st) as [[vault|e] st1];
      [|now split].
    destruct (findItemByTitle roundTrip c (Vault_ID vault) itemTitle st1)
      as [[summary|e] st2]; [|now split].
    destruct (getItem roundTrip c (Vault_ID vault) (Summary_ID summary) st2)
      as [[item|e] st3]; [|now split].
    destruct (selectFieldValue item selector) as [value|e]; now split.
Qed.

End FindProperties.

(** C8, at the input where the code fails.  The path escaping turns a plus
    sign into the escape of a space: the segment built for an identifier
    with a plus sign decodes to a different identifier, the one with a
    space in its place, and both identifiers get the same segment. *)
Theorem escapePathSegment_plus :
  escapePathSegment "a+b" = "a%20b"
  /\ PathUnescape (escapePathSegment "a+b") = Some "a b"
  /\ PathUnescape (escapePathSegment "a+b") <> Some "a+b"
  /\ escapePathSegment "a+b" = escapePathSegment "a b".
Proof. repeat split; try reflexivity. discriminate. Qed.

(** * Further properties of the package *)

(** ** Paths and selectors *)

Lemma filter_filter_implied {A : Type} (p q : A -> bool) (l : list A) :
  (forall x, p x = true -> q x = true) ->
  List.filter p (List.filter q l) = List.filter p l.
Proof.
  intros Hpq. induction l as [|x l IH]; simpl; [reflexivity|].
  destruct (q x) eqn:Eq; simpl.
  - now rewrite IH.
  - destruct (p x) eqn:Ep; [|exact IH]. rewrite (Hpq x Ep) in Eq. discriminate.
Qed.

Lemma filter_permutation {A : Type} (p : A -> bool) (l l' : list A) :
  Permutation l l' -> Permutation (List.filter p l) (List.filter p l').
Proof.
  induction 1 as [|x l l' _ IH|x y l|l l' l'' _ IH1 _ IH2]; simpl.
  - constructor.
  - destruct (p x); [now constructor|exact IH].
  - destruct (p x), (p y); try reflexivity. apply perm_swap.
  - now transitivity (List.filter p l').
Qed.

(** Telling no, one and several elements apart does not depend on the
    order. *)
Lemma exactly_one_permutation {A B : Type} (l l' : list A) (none several : B) (one : A -> B) :
  Permutation l l' ->
  match l with [] => none | [x] => one x | _ => several end
  = match l' with [] => none | [x] => one x | _ => several end.
Proof.
  intros Hp. destruct l as [|x [|y l]].
  - apply Permutation_nil in Hp. now subst.
  - apply Permutation_length_1_inv in Hp. now subst.
  - pose proof (Permutation_length Hp) as Hl.
    destruct l' as [|x' [|y' l']]; simpl in Hl; try lia. reflexivity.
Qed.

Section MoreSelection.
Context `{GoStrings}.

(** X3. A vault name and an item title that are trimmed, not empty and
    free of solidi, joined by a solidus with or without a trimmed selector
    after a second one, parse back to themselves. *)
Theorem parseSecretPath_roundtrip (vault item field : string) :
  hasByte "/" vault = false -> hasByte "/" item = false ->
  vault <> EmptyString -> item <> EmptyString ->
  TrimSpace vault = vault -> TrimSpace item = item -> TrimSpace field = field ->
  parseSecretPath (vault +:+ String "/" (item +:+ String "/" field))
    = Ok (vault, item, field)
  /\ parseSecretPath (vault +:+ String "/" item) = Ok (vault, item, EmptyString).
Proof.
  intros Hv Hi Hve Hie Htv Hti Htf.
  apply is_empty_false in Hve, Hie.
  rewrite !parseSecretPath_parts, (SplitN3_three _ _ _ Hv Hi), (SplitN3_two _ _ Hv Hi).
  now rewrite Htv, Hti, Htf, Hve, Hie.
Qed.

(** X4. What a successful parse returns is normalised: the vault name and
    the item title are not empty, and trimming any of the three results
    again changes nothing. *)
Theorem parseSecretPath_normalised (path vault item field : string) :
  parseSecretPath path = Ok (vault, item, field) ->
  vault <> EmptyString /\ item <> EmptyString
  /\ TrimSpace vault = vault /\ TrimSpace item = item /\ TrimSpace field = field.
Proof.
  assert (Hempty : TrimSpace EmptyString = EmptyString)
    by (now rewrite TrimSpace_ascii by reflexivity).
  rewrite parseSecretPath_parts.
  destruct (SplitN path "/" 3) as [|v [|i [|f l]]]; try discriminate.
  - destruct (is_empty (TrimSpace v)) eqn:Ev; [discriminate|].
    destruct (is_empty (TrimSpace i)) eqn:Ei; [discriminate|].
    cbn [orb]. intros [= <- <- <-]. apply is_empty_false in Ev, Ei.
    now rewrite !TrimSpace_idem.
  - destruct (is_empty (TrimSpace v)) eqn:Ev; [discriminate|].
    destruct (is_empty (TrimSpace i)) eqn:Ei; [discriminate|].
    cbn [orb]. intros [= <- <- <-]. apply is_empty_false in Ev, Ei.
    rewrite !TrimSpace_idem. repeat split; auto.
    destruct l; [apply TrimSpace_idem|exact Hempty].
Qed.



Lemma section_ids_permutation (item item' : fullItem) (sectionLabel : string) :
  Permutation (Item_Sections item) (Item_Sections item') ->
  section_ids item sectionLabel = section_ids item' sectionLabel.
Proof.
  intros Hp. apply set_eq. intros id. rewrite !elem_of_section_ids.
  split; intros (s & Hin & Hs); exists s; (split; [|exact Hs]).
  - eapply Permutation_in; eauto.
  - eapply Permutation_in; [symmetry|]; eauto.
Qed.

(** X6. Selection does not depend on the order of the fields or of the
    sections of the item: no lookup prefers an earlier match. *)
Theorem selectFieldValue_permutation (item item' : fullItem) (selector : string) :
  Item_Title item = Item_Title item' ->
  Item_NotesPlain item = Item_NotesPlain item' ->
  Permutation (Item_Fields item) (Item_Fields item') ->
  Permutation (Item_Sections item) (Item_Sections item') ->
  selectFieldValue item selector = selectFieldValue item' selector.
Proof.
  intros Ht Hn Hf Hs.
  assert (Hlabel : forall label,
             findFieldByLabel item label = findFieldByLabel item' label).
  { intros label. rewrite !findFieldByLabel_spec. unfold unqualified_lookup.
    rewrite Ht. apply exactly_one_permutation, filter_permutation, Hf. }
  unfold selectFieldValue. destruct (is_empty selector).
  - rewrite !defaultPassword_spec, Hlabel, Ht.
    apply exactly_one_permutation, filter_permutation, Hf.
  - rewrite Hn, Ht. destruct (EqualFold selector "notes" || EqualFold selector "notesPlain");
      [reflexivity|].
    destruct (splitQualifiedLabel selector) as [sectionName fieldLabel].
    destruct (negb (is_empty sectionName)); [|apply Hlabel].
    rewrite !findFieldInSection_spec, Ht,
      (section_ids_permutation item item' sectionName Hs).
    destruct (decide _); [reflexivity|].
    apply exactly_one_permutation, filter_permutation, Hf.
Qed.

(** X7. Fields without a value play no part in any selection: leaving
    them out of the item changes no result. *)
Theorem selectFieldValue_unset_fields (item : fullItem) (selector : string) :
  selectFieldValue (without_unset_fields item) selector = selectFieldValue item selector.
Proof.
  assert (Hlabel : forall label,
             findFieldByLabel (without_unset_fields item) label
             = findFieldByLabel item label).
  { intros label. rewrite !findFieldByLabel_spec. unfold unqualified_lookup.
    cbn [without_unset_fields Item_Fields Item_Title].
    rewrite filter_filter_implied; [reflexivity|].
    intros f Hf. unfold label_candidate in Hf. now apply andb_prop in Hf as [_ Hf]. }
  unfold selectFieldValue. destruct (is_empty selector).
  - rewrite !defaultPassword_spec, Hlabel.
    cbn [without_unset_fields Item_Fields Item_Title].
    rewrite filter_filter_implied; [reflexivity|].
    intros f Hf. unfold password_candidate in Hf. now apply andb_prop in Hf as [_ Hf].
  - cbn [without_unset_fields Item_NotesPlain Item_Title].
    destruct (EqualFold selector "notes" || EqualFold selector "notesPlain");
      [reflexivity|].
    destruct (splitQualifiedLabel selector) as [sectionName fieldLabel].
    destruct (negb (is_empty sectionName)); [|apply Hlabel].
    rewrite !findFieldInSection_spec.
    change (section_ids (without_unset_fields item) sectionName)
      with (section_ids item sectionName).
    cbn [without_unset_fields Item_Fields Item_Title].
    rewrite filter_filter_implied; [reflexivity|].
    intros f Hf. unfold section_candidate, label_candidate in Hf.
    apply andb_prop in Hf as [_ Hf]. now apply andb_prop in Hf as [_ Hf].
Qed.

(** X8. A section-qualified selector and the unqualified selector for the
    same label never disagree on a value: when the qualified lookup
    returns a value, the unqualified one returns the same value or reports
    the label as ambiguous. *)
Theorem qualified_agrees_with_unqualified (item : fullItem) (a b value : string) :
  hasByte "/" a = false -> TrimSpace a <> EmptyString ->
  selectFieldValue item (a +:+ String "/" b) = Ok value ->
  selectFieldValue item (String "/" b) = Ok value
  \/ selectFieldValue item (String "/" b)
     = Err (ErrFieldAmbiguous (TrimSpace b) (Item_Title item)).
Proof.
  intros Ha Hsec.
  rewrite (selectFieldValue_split item a b Ha).
  rewrite (selectFieldValue_split item EmptyString b eq_refl).
  rewrite (TrimSpace_ascii EmptyString) by reflexivity.
  apply is_empty_false in Hsec. rewrite Hsec. cbn [negb ascii_TrimSpace trimLeft trimRight is_empty].
  rewrite findFieldInSection_spec, findFieldByLabel_spec, TrimSpace_idem.
  destruct (decide _); [discriminate|].
  destruct (List.filter (section_candidate _ _) _) as [|f [|g l]] eqn:E; try discriminate.
  intros [= <-].
  assert (Hin : In f (List.filter
                        (section_candidate (section_ids item (TrimSpace a)) (TrimSpace b))
                        (Item_Fields item)))
    by (rewrite E; now left).
  apply List.filter_In in Hin as [Hin Hc]. unfold section_candidate in Hc.
  apply andb_prop in Hc as [_ Hc].
  assert (Hin' : In f (List.filter (label_candidate (TrimSpace b)) (Item_Fields item)))
    by (apply List.filter_In; auto).
  unfold unqualified_lookup.
  destruct (List.filter (label_candidate (TrimSpace b)) (Item_Fields item))
    as [|g [|g' l]]; [destruct Hin'| |now right].
  left. destruct Hin' as [->|[]]. reflexivity.
Qed.

End MoreSelection.

(** ** What the requests carry *)

Lemma append_inv_head (s a b : string) : s +:+ a = s +:+ b -> a = b.
Proof. induction s as [|c s IH]; simpl; [auto|]. intros [= E]. auto. Qed.

Lemma scanQuoted_literal (d : ascii) (s : string) :
  scanQuoted (String "\" (String d s))
  = match scanQuoted s with
    | Some (v, r) => Some (String d v, r)
    | None => None
    end.
Proof. reflexivity. Qed.

Lemma scanQuoted_escape (value rest : string) :
  scanQuoted (escapeFilterValue value +:+ String dquote rest) = Some (value, rest).
Proof.
  induction value as [|c s IH].
  - reflexivity.
  - rewrite escapeFilterValue_cons. destruct (Ascii.eqb c "\") eqn:Eb.
    + apply Ascii.eqb_eq in Eb. subst c.
      change (String "\" (String "\" (escapeFilterValue s)) +:+ String dquote rest)
        with (String "\" (String "\" (escapeFilterValue s +:+ String dquote rest))).
      now rewrite scanQuoted_literal, IH.
    + destruct (Ascii.eqb c dquote) eqn:Eq.
      * apply Ascii.eqb_eq in Eq. subst c.
        change (String "\" (String dquote (escapeFilterValue s)) +:+ String dquote rest)
          with (String "\" (String dquote (escapeFilterValue s +:+ String dquote rest))).
        now rewrite scanQuoted_literal, IH.
      * change (String c (escapeFilterValue s) +:+ String dquote rest)
          with (String c (escapeFilterValue s +:+ String dquote rest)).
        cbn [scanQuoted]. now rewrite Eq, Eb, IH.
Qed.

(** X9. The filter built for a field and a value is the field, [ eq ] and
    a quoted string whose body reads back as exactly the value with
    nothing after the closing quote: no quote or backslash in the value
    ends the string early or spills into the expression.  Filters of the
    same field for different values differ. *)
Theorem buildEqualsFilter_scans (field value : string) :
  (exists body,
      buildEqualsFilter field value = field +:+ " eq " +:+ String dquote body
      /\ scanQuoted body = Some (value, EmptyString))
  /\ (forall value',
        buildEqualsFilter field value = buildEqualsFilter field value' ->
        value = value').
Proof.
  split.
  - exists (escapeFilterValue value +:+ String dquote EmptyString).
    split; [reflexivity|apply scanQuoted_escape].
  - intros value' E. unfold buildEqualsFilter in E.
    apply append_inv_head, append_inv_head in E. injection E as E.
    pose proof (scanQuoted_escape value EmptyString) as H1.
    pose proof (scanQuoted_escape value' EmptyString) as H2.
    rewrite E in H1. rewrite H1 in H2. now injection H2.
Qed.

Lemma upperhex_unescaped (n : N) (mode : encoding) :
  shouldEscape (upperhex n) mode = false.
Proof.
  unfold upperhex. destruct n as [|p]; [reflexivity|].
  repeat (destruct p as [p|p|]; try reflexivity).
Qed.

Lemma not_upperhex (x : ascii) (n : N) (mode : encoding) :
  shouldEscape x mode = true -> Ascii.eqb (upperhex n) x = false.
Proof.
  intros Hx. destruct (Ascii.eqb (upperhex n) x) eqn:E; [|reflexivity].
  apply Ascii.eqb_eq in E. subst x. now rewrite upperhex_unescaped in Hx.
Qed.

Lemma eqb_escaped (c x : ascii) (mode : encoding) :
  shouldEscape x mode = true -> shouldEscape c mode = false -> Ascii.eqb c x = false.
Proof.
  intros Hx Hc. destruct (Ascii.eqb c x) eqn:E; [|reflexivity].
  apply Ascii.eqb_eq in E. subst x. congruence.
Qed.

(** A byte that the query escaping escapes, other than the percent sign,
    does not occur in its output. *)
Lemma QueryEscape_clean (x : ascii) (s : string) :
  shouldEscape x encodeQueryComponent = true ->
  Ascii.eqb x "%" = false -> Ascii.eqb x "+" = false ->
  hasByte x (QueryEscape s) = false.
Proof.
  intros Hx Hp Hplus. unfold QueryEscape.
  assert (Hp' : Ascii.eqb "%" x = false) by (now rewrite Ascii.eqb_sym).
  assert (Hplus' : Ascii.eqb "+" x = false) by (now rewrite Ascii.eqb_sym).
  induction s as [|c s IH]; [reflexivity|]. cbn [escape].
  destruct (Ascii.eqb c " ").
  - cbn [hasByte]. now rewrite Hplus', IH.
  - destruct (shouldEscape c encodeQueryComponent) eqn:Esc; cbn [hasByte].
    + now rewrite Hp', !(not_upperhex x _ _ Hx), IH.
    + now rewrite (eqb_escaped c x _ Hx Esc), IH.
Qed.

Lemma PathEscape_clean (x : ascii) (s : string) :
  shouldEscape x encodePathSegment = true -> Ascii.eqb x "%" = false ->
  hasByte x (PathEscape s) = false.
Proof.
  intros Hx Hp. unfold PathEscape.
  assert (Hp' : Ascii.eqb "%" x = false) by (now rewrite Ascii.eqb_sym).
  induction s as [|c s IH]; [reflexivity|]. cbn [escape].
  destruct (shouldEscape c encodePathSegment) eqn:Esc; cbn [hasByte].
  - now rewrite Hp', !(not_upperhex x _ _ Hx), IH.
  - now rewrite (eqb_escaped c x _ Hx Esc), IH.
Qed.

Lemma hasByte_append (x : ascii) (a b : string) :
  hasByte x (a +:+ b) = hasByte x a || hasByte x b.
Proof.
  induction a as [|c a IH]; simpl; [reflexivity|]. now rewrite IH, orb_assoc.
Qed.

Lemma ReplaceAll_clean (x old : ascii) (new s : string) :
  hasByte x s = false -> hasByte x new = false ->
  hasByte x (ReplaceAll s old new) = false.
Proof.
  intros Hs Hn. induction s as [|c s IH]; [reflexivity|].
  cbn [hasByte] in Hs. apply orb_false_elim in Hs as [Hc Hs]. cbn [ReplaceAll].
  destruct (Ascii.eqb c old).
  - now rewrite hasByte_append, Hn, IH.
  - cbn [hasByte]. now rewrite Hc, IH.
Qed.

(** A byte that the path escaping escapes, other than the percent sign and
    the digits of the space escape, does not occur in an escaped segment. *)
Lemma escapePathSegment_clean (x : ascii) (s : string) :
  shouldEscape x encodePathSegment = true -> Ascii.eqb x "%" = false ->
  hasByte x (escapePathSegment s) = false.
Proof.
  intros Hx Hp. unfold escapePathSegment.
  apply ReplaceAll_clean; [now apply PathEscape_clean|].
  assert (Hp' : Ascii.eqb "%" x = false) by (now rewrite Ascii.eqb_sym).
  cbn [hasByte]. rewrite Hp'.
  change "2"%char with (upperhex 2). change "0"%char with (upperhex 0).
  now rewrite !(not_upperhex x _ _ Hx).
Qed.

Lemma Split_first (sep : ascii) (a b : string) :
  hasByte sep a = false -> Split sep (a +:+ String sep b) = a :: Split sep b.
Proof. intros Ha. apply Split_Cut_Some, Cut_first, Ha. Qed.

Lemma Split_single (sep : ascii) (a : string) :
  hasByte sep a = false -> Split sep a = [a].
Proof. intros Ha. apply Split_Cut_None, Cut_absent, Ha. Qed.

(** X10. A request with one filter has the query string [filter=] followed
    by the escaped filter: unescaping gives the filter back, and the
    escaped filter holds no ampersand, equals sign, number sign or space,
    so the query string is one parameter whatever the filter contains. *)
Theorem newRequest_filter_query (c : connectClient) (path flt : string) :
  RawQuery (Req_URL (newRequest c path [("filter", [flt])]))
    = "filter=" +:+ QueryEscape flt
  /\ QueryUnescape (QueryEscape flt) = Some flt
  /\ hasByte "&" (QueryEscape flt) = false
  /\ hasByte "=" (QueryEscape flt) = false
  /\ hasByte "#" (QueryEscape flt) = false
  /\ hasByte " " (QueryEscape flt) = false.
Proof.
  split.
  { unfold newRequest. cbn [length Nat.ltb Nat.leb]. now destruct (negb _). }
  split; [apply unescape_escape_query|].
  repeat split; now apply QueryEscape_clean.
Qed.

(** X11. The paths built for the item list and for an item have exactly
    the segments the code writes, whatever the identifiers contain: an
    escaped identifier holds no solidus, question mark, number sign or
    space. *)
Theorem item_path_segments (vaultID itemID : string) :
  Split "/" ("vaults/" +:+ escapePathSegment vaultID +:+ "/items")
    = ["vaults"; escapePathSegment vaultID; "items"]
  /\ Split "/" ("vaults/" +:+ escapePathSegment vaultID
                +:+ "/items/" +:+ escapePathSegment itemID)
     = ["vaults"; escapePathSegment vaultID; "items"; escapePathSegment itemID]
  /\ hasByte "/" (escapePathSegment vaultID) = false
  /\ hasByte "?" (escapePathSegment vaultID) = false
  /\ hasByte "#" (escapePathSegment vaultID) = false
  /\ hasByte " " (escapePathSegment vaultID) = false.
Proof.
  assert (Hseg : forall s, hasByte "/" (escapePathSegment s) = false)
    by (intros s; now apply escapePathSegment_clean).
  split; [|split].
  - change ("vaults/" +:+ escapePathSegment vaultID +:+ "/items")
      with ("vaults" +:+ String "/" (escapePathSegment vaultID +:+ String "/" "items")).
    rewrite (Split_first "/" "vaults") by reflexivity.
    rewrite (Split_first "/" _ _ (Hseg vaultID)).
    now rewrite (Split_single "/" "items") by reflexivity.
  - change ("vaults/" +:+ escapePathSegment vaultID
            +:+ "/items/" +:+ escapePathSegment itemID)
      with ("vaults" +:+ String "/" (escapePathSegment vaultID
              +:+ String "/" ("items" +:+ String "/" (escapePathSegment itemID)))).
    rewrite (Split_first "/" "vaults") by reflexivity.
    rewrite (Split_first "/" _ _ (Hseg vaultID)).
    rewrite (Split_first "/" "items") by reflexivity.
    now rewrite (Split_single "/" _ (Hseg itemID)).
  - repeat split; now apply escapePathSegment_clean.
Qed.

(** ** The round trips of a resolution *)

Section FindRequests.
Context {W : Type} (roundTrip : httpRequest -> W -> Result error httpResponse * W).
Context `{GoStrings}.


(** Whatever the answer, [get] records the one request it built. *)
Lemma get_sent {A : Type} (c : connectClient) (path : string) (query : Values)
    (out : option (jsonBody -> option A)) (st : clientState) :
  sent (snd (get roundTrip c path query out st))
    = sent st ++ [newRequest c path query].
Proof.
  unfold get. destruct (roundTrip _ _) as [[resp|e] w']; [|reflexivity].
  destruct ((200 <=? StatusCode resp) && (StatusCode resp <? 300)); [|reflexivity].
  destruct out as [decode|]; [|reflexivity].
  destruct (decode (Body resp)); reflexivity.
Qed.

Lemma findVaultByName_sent (c : connectClient) (name : string) (st st' : clientState)
    (r : Result error vaultSummary) :
  findVaultByName roundTrip c name st = (r, st') ->
  sent st' = sent st ++ [vaultRequest c name].
Proof.
  unfold findVaultByName, mbind, M_bind, mret, M_ret. intros E.
  pose proof (get_sent c "vaults" [("filter", [buildEqualsFilter "name" name])]
                (Some as_vaults) st) as Hs.
  destruct (get roundTrip c "vaults" _ (Some as_vaults) st) as [[d|e] st1];
    cbn [snd] in Hs.
  - destruct (default [] d) as [|v [|v' l]]; injection E as _ <-; exact Hs.
  - injection E as _ <-. exact Hs.
Qed.

Lemma findItemByTitle_sent (c : connectClient) (vaultID title : string)
    (st st' : clientState) (r : Result error itemSummary) :
  findItemByTitle roundTrip c vaultID title st = (r, st') ->
  sent st' = sent st ++ [itemRequest c vaultID title].
Proof.
  unfold findItemByTitle, mbind, M_bind, mret, M_ret. intros E.
  pose proof (get_sent c ("vaults/" +:+ escapePathSegment vaultID +:+ "/items")
                [("filter", [buildEqualsFilter "title" title])]
                (Some as_items) st) as Hs.
  destruct (get roundTrip c _ _ (Some as_items) st) as [[d|e] st1]; cbn [snd] in Hs.
  - destruct (default [] d) as [|v [|v' l]]; injection E as _ <-; exact Hs.
  - injection E as _ <-. exact Hs.
Qed.

Lemma getItem_sent (c : connectClient) (vaultID itemID : string)
    (st st' : clientState) (r : Result error fullItem) :
  getItem roundTrip c vaultID itemID st = (r, st') ->
  sent st' = sent st ++ [loadRequest c vaultID itemID].
Proof.
  unfold getItem, mbind, M_bind, mret, M_ret. intros E.
  pose proof (get_sent c ("vaults/" +:+ escapePathSegment vaultID
                          +:+ "/items/" +:+ escapePathSegment itemID)
                [] (Some as_item) st) as Hs.
  destruct (get roundTrip c _ _ (Some as_item) st) as [[d|e] st1]; cbn [snd] in Hs;
    injection E as _ <-; exact Hs.
Qed.



(** X13. The number of requests a failed resolution has sent tells the
    stage that failed: none for a rejected request or a malformed path,
    one for the vault lookup, two for the item lookup, three for the item
    fetch or the field selection; a lookup or fetch error is wrapped with
    its stage and the vault name or item title, the others are returned as
    they are. *)
Theorem Find_failure_stage (c : connectClient) (req : Request) (st st' : clientState)
    (e : error) :
  Find roundTrip c (Some req) st = (Err e, st') ->
  exists reqs,
    sent st' = sent st ++ reqs
    /\ ((reqs = [] /\ st' = st
         /\ ((Req_Name req = EmptyString /\ e = ErrEmptyName)
             \/ parseSecretPath (Req_Path req) = Err e))
        \/ (exists vaultName itemTitle selector,
              parseSecretPath (Req_Path req) = Ok (vaultName, itemTitle, selector)
              /\ ((exists e', length reqs = 1%nat
                              /\ e = ErrWrap LookupVault vaultName e'
                              /\ fst (findVaultByName roundTrip c vaultName st) = Err e')
                  \/ (exists e', length reqs = 2%nat
                                 /\ e = ErrWrap LookupItem itemTitle e')
                  \/ (exists e', length reqs = 3%nat
                                 /\ e = ErrWrap LoadItem itemTitle e')
                  \/ (exists item, length reqs = 3%nat
                                   /\ selectFieldValue item selector = Err e)))).
Proof.
  unfold Find. destruct (is_empty (Req_Name req)) eqn:En.
  { intros [= <- <-]. exists []. rewrite app_nil_r. split; [reflexivity|].
    left. apply is_empty_true in En. auto. }
  destruct (parseSecretPath (Req_Path req)) as [[[vaultName itemTitle] selector]|e0] eqn:Ep.
  2:{ intros [= <- <-]. exists []. rewrite app_nil_r. split; [reflexivity|].
      left. auto. }
  unfold mbind, M_bind, mret, M_ret.
  destruct (findVaultByName roundTrip c vaultName st) as [[vault|e1] st1] eqn:Ev;
    pose proof (findVaultByName_sent _ _ _ _ _ Ev) as H1.
  2:{ intros [= <- <-]. exists [vaultRequest c vaultName]. split; [exact H1|].
      right. exists vaultName, itemTitle, selector. split; [reflexivity|].
      left. exists e1. rewrite Ev. repeat split. }
  destruct (findItemByTitle roundTrip c (Vault_ID vault) itemTitle st1)
    as [[summary|e2] st2] eqn:Ei;
    pose proof (findItemByTitle_sent _ _ _ _ _ _ Ei) as H2.
  2:{ intros [= <- <-].
      exists [vaultRequest c vaultName; itemRequest c (Vault_ID vault) itemTitle].
      split; [now rewrite H2, H1, <- app_assoc|].
      right. exists vaultName, itemTitle, selector. split; [reflexivity|].
      right. left. exists e2. cbn [length]. split; reflexivity. }
  destruct (getItem roundTrip c (Vault_ID vault) (Summary_ID summary) st2)
    as [[item|e3] st3] eqn:Eg;
    pose proof (getItem_sent _ _ _ _ _ _ Eg) as H3.
  2:{ intros [= <- <-].
      exists [vaultRequest c vaultName; itemRequest c (Vault_ID vault) itemTitle;
              loadRequest c (Vault_ID vault) (Summary_ID summary)].
      split; [now rewrite H3, H2, H1, <- !app_assoc|].
      right. exists vaultName, itemTitle, selector. split; [reflexivity|].
      right. right. left. exists e3. cbn [length]. split; reflexivity. }
  destruct (selectFieldValue item selector) as [value|e4] eqn:Es; [discriminate|].
  intros [= <- <-].
  exists [vaultRequest c vaultName; itemRequest c (Vault_ID vault) itemTitle;
          loadRequest c (Vault_ID vault) (Summary_ID summary)].
  split; [now rewrite H3, H2, H1, <- !app_assoc|].
  right. exists vaultName, itemTitle, selector. split; [reflexivity|].
  right. right. right. exists item. cbn [length]. split; [reflexivity|exact Es].
Qed.

End FindRequests.

(** ** The text of an API error *)

Lemma string_of_uint_no_paren (d : Decimal.uint) :
  hasByte ")" (DecimalString.NilEmpty.string_of_uint d) = false.
Proof. induction d; simpl; auto. Qed.

Lemma formatInt_no_paren (n : Z) : hasByte ")" (formatInt n) = false.
Proof.
  unfold formatInt. destruct (Z.to_int n) as [d|d]; simpl;
    apply string_of_uint_no_paren.
Qed.

Lemma formatInt_injective (m n : Z) : formatInt m = formatInt n -> m = n.
Proof.
  unfold formatInt. intros E.
  pose proof (DecimalString.NilEmpty.isi (Z.to_int m)) as Hm.
  rewrite E, DecimalString.NilEmpty.isi in Hm. injection Hm as Hm.
  rewrite <- (DecimalZ.of_to m), <- (DecimalZ.of_to n). now rewrite Hm.
Qed.

(** X14. The text of an API error determines the error: two API errors
    with the same text have the same status code and the same message. *)
Theorem apiError_Error_injective (code code' : Z) (message message' : string) :
  apiError_Error code message = apiError_Error code' message' ->
  code = code' /\ message = message'.
Proof.
  unfold apiError_Error. intros E. apply append_inv_head in E.
  assert (Hcut : forall n m,
             Cut ")" (formatInt n +:+ "): " +:+ m) = Some (formatInt n, ": " +:+ m)).
  { intros n m. apply (Cut_first ")" (formatInt n) (": " +:+ m)), formatInt_no_paren. }
  pose proof (Hcut code message) as H1. rewrite E, Hcut in H1.
  injection H1 as Hc Hm. split.
  - apply formatInt_injective. symmetry. exact Hc.
  - symmetry. exact Hm.
Qed.

(** ** Building the client *)

Lemma append_assoc3 (a b c : string) : (a +:+ b) +:+ c = a +:+ b +:+ c.
Proof.
  induction a as [|x a IH]; [reflexivity|].
  change ((String x a +:+ b) +:+ c) with (String x ((a +:+ b) +:+ c)).
  now rewrite IH.
Qed.

Lemma HasSuffix_unfold (s suffix : string) :
  HasSuffix s suffix
  = String.eqb s suffix
    || match s with
       | EmptyString => false
       | String _ s' => HasSuffix s' suffix
       end.
Proof. destruct s; reflexivity. Qed.

Lemma HasSuffix_append (s suffix : string) : HasSuffix (s +:+ suffix) suffix = true.
Proof.
  induction s as [|c s IH].
  - cbn [String.append]. rewrite HasSuffix_unfold, String.eqb_refl. reflexivity.
  - change (String c s +:+ suffix) with (String c (s +:+ suffix)).
    rewrite HasSuffix_unfold, IH. apply orb_true_r.
Qed.

Lemma HasSuffix_split (s suffix : string) :
  HasSuffix s suffix = true -> exists p, s = p +:+ suffix.
Proof.
  induction s as [|c s IH]; rewrite HasSuffix_unfold; intros Hs;
    apply orb_prop in Hs as [Hs|Hs]; try discriminate.
  - apply String.eqb_eq in Hs. exists EmptyString. now subst.
  - apply String.eqb_eq in Hs. exists EmptyString. now subst.
  - destruct (IH Hs) as [p ->]. now exists (String c p).
Qed.

(** A path that ends in [/v1] has no trailing solidus to trim. *)
Lemma TrimSuffix_v1 (s : string) :
  HasSuffix s "/v1" = true -> TrimSuffix s "/" = s.
Proof.
  induction s as [|c s IH]; rewrite HasSuffix_unfold; intros Hs;
    apply orb_prop in Hs as [Hs|Hs]; try discriminate.
  - apply String.eqb_eq in Hs. now rewrite Hs.
  - specialize (IH Hs). destruct s as [|d s]; [discriminate Hs|].
    change (TrimSuffix (String c (String d s)) "/")
      with (String c (TrimSuffix (String d s) "/")).
    now rewrite IH.
Qed.

Section ConstructionProperties.
Context (Parse : string -> Result string parsedURL).

(** The path [newConnectClient] stores for a parsed path. *)
Lemma newConnectClient_path (baseURL token : string) (httpClient : option HTTPClient)
    (b : builtClient) :
  newConnectClient Parse baseURL token httpClient = Ok b ->
  exists u,
    Parse baseURL = Ok u
    /\ baseURL <> EmptyString /\ token <> EmptyString
    /\ U_Scheme u <> EmptyString /\ U_Host u <> EmptyString
    /\ b = {| bc_baseURL :=
                {| U_Scheme := U_Scheme u; U_Host := U_Host u;
                   U_Path :=
                     if is_empty (TrimSuffix (U_Path u) "/") then "/v1"
                     else if negb (HasSuffix (TrimSuffix (U_Path u) "/") "/v1")
                          then TrimSuffix (U_Path u) "/" +:+ "/v1"
                          else TrimSuffix (U_Path u) "/";
                   U_RawQuery := EmptyString; U_Fragment := EmptyString |};
              bc_httpClient :=
                match httpClient with
                | Some given => given
                | None => {| Timeout := 15 * Second |}
                end;
              bc_token := token |}.
Proof.
  unfold newConnectClient.
  destruct (is_empty baseURL) eqn:Eb; [discriminate|].
  destruct (is_empty token) eqn:Et; [discriminate|].
  destruct (Parse baseURL) as [u|err]; [|discriminate].
  destruct (is_empty (U_Scheme u)) eqn:Es; [discriminate|].
  destruct (is_empty (U_Host u)) eqn:Eh; [discriminate|].
  cbn [orb]. intros [= <-]. exists u.
  apply is_empty_false in Eb, Et, Es, Eh. auto 10.
Qed.

(** X15. [newConnectClient] succeeds exactly when the host and the token
    are not empty, the host parses, and the parsed URL has a scheme and a
    host.  An empty host is reported first, whatever the token; an empty
    token is reported before the host is parsed. *)
Theorem newConnectClient_ok_iff (baseURL token : string) (httpClient : option HTTPClient) :
  ((exists b, newConnectClient Parse baseURL token httpClient = Ok b) <->
     baseURL <> EmptyString /\ token <> EmptyString
     /\ exists u, Parse baseURL = Ok u
                  /\ U_Scheme u <> EmptyString /\ U_Host u <> EmptyString)
  /\ (baseURL = EmptyString ->
      newConnectClient Parse baseURL token httpClient = Err ErrMissingHost)
  /\ (baseURL <> EmptyString -> token = EmptyString ->
      newConnectClient Parse baseURL token httpClient = Err ErrMissingToken)
  /\ (forall e, newConnectClient Parse baseURL token httpClient = Err (ErrInvalidHost e) ->
                Parse baseURL = Err e).
Proof.
  split; [split|split; [|split]].
  - intros [b Hb]. apply newConnectClient_path in Hb as (u & Hu & Hb & Ht & Hs & Hh & _).
    eauto 10.
  - intros (Hb & Ht & u & Hu & Hs & Hh). unfold newConnectClient.
    apply is_empty_false in Hb, Ht, Hs, Hh. rewrite Hb, Ht, Hu, Hs, Hh. cbn [orb]. eauto.
  - intros ->. reflexivity.
  - intros Hb ->. unfold newConnectClient. apply is_empty_false in Hb. now rewrite Hb.
  - intros e. unfold newConnectClient.
    destruct (is_empty baseURL); [discriminate|].
    destruct (is_empty token); [discriminate|].
    destruct (Parse baseURL) as [u|err]; [|now intros [= ->]].
    destruct (is_empty (U_Scheme u) || is_empty (U_Host u)); discriminate.
Qed.

(** The path stored always ends in [/v1]. *)
Lemma cleanPath_suffix (p : string) :
  HasSuffix
    (if is_empty (TrimSuffix p "/") then "/v1"
     else if negb (HasSuffix (TrimSuffix p "/") "/v1")
          then TrimSuffix p "/" +:+ "/v1"
          else TrimSuffix p "/") "/v1" = true.
Proof.
  destruct (is_empty _); [reflexivity|].
  destruct (HasSuffix (TrimSuffix p "/") "/v1") eqn:E; cbn [negb];
    [exact E|apply HasSuffix_append].
Qed.

(** X16. The client [newConnectClient] builds is normalised: its base
    path ends in [/v1] and has no trailing solidus, its query and fragment
    are empty, scheme and host are the parsed ones, the token is the one
    given, and the HTTP client is the one given or one with a timeout of
    15 seconds.  A parsed path that already ends in [/v1] is kept as it
    is. *)
Theorem newConnectClient_normalised (baseURL token : string)
    (httpClient : option HTTPClient) (b : builtClient) :
  newConnectClient Parse baseURL token httpClient = Ok b ->
  HasSuffix (U_Path (bc_baseURL b)) "/v1" = true
  /\ TrimSuffix (U_Path (bc_baseURL b)) "/" = U_Path (bc_baseURL b)
  /\ U_RawQuery (bc_baseURL b) = EmptyString
  /\ U_Fragment (bc_baseURL b) = EmptyString
  /\ bc_token b = token
  /\ bc_httpClient b = match httpClient with
                       | Some given => given
                       | None => {| Timeout := 15000000000 |}
                       end
  /\ (forall u, Parse baseURL = Ok u ->
        U_Scheme (bc_baseURL b) = U_Scheme u /\ U_Host (bc_baseURL b) = U_Host u
        /\ (HasSuffix (U_Path u) "/v1" = true -> U_Path (bc_baseURL b) = U_Path u)).
Proof.
  intros Hb. apply newConnectClient_path in Hb as (u & Hu & _ & _ & _ & _ & ->).
  cbn [bc_baseURL bc_token bc_httpClient U_Path U_RawQuery U_Fragment U_Scheme U_Host].
  split; [apply cleanPath_suffix|].
  split; [apply TrimSuffix_v1, cleanPath_suffix|].
  repeat (split; [reflexivity|]).
  intros u' Hu'. rewrite Hu in Hu'. injection Hu' as <-.
  repeat (split; [reflexivity|]).
  intros Hv. rewrite (TrimSuffix_v1 _ Hv), Hv. cbn [negb].
  destruct (U_Path u); [discriminate Hv|reflexivity].
Qed.

(** X17. Every request of a client built by [newConnectClient] goes to
    the parsed scheme and host, under the API root: its path is the base
    path, which ends in [/v1], followed by a solidus and the relative
    path; it carries the token given; and without a filter its query is
    empty, whatever query the configured host had. *)
Theorem built_client_requests (host secret : string) (httpClient : option HTTPClient)
    (b : builtClient) (path : string) (query : Values) :
  newConnectClient Parse host secret httpClient = Ok b ->
  TrimPrefix path "/" <> EmptyString ->
  let req := newRequest (client_of b) path query in
  (exists root, Path (Req_URL req) = root +:+ "/v1" +:+ "/" +:+ TrimPrefix path "/"
                /\ U_Path (bc_baseURL b) = root +:+ "/v1")
  /\ Req_Authorization req = "Bearer " +:+ secret
  /\ (query = [] -> RawQuery (Req_URL req) = EmptyString)
  /\ (forall u, Parse host = Ok u ->
        Scheme (Req_URL req) = U_Scheme u /\ Host (Req_URL req) = U_Host u).
Proof.
  intros Hb Hrel req.
  apply newConnectClient_path in Hb as (u0 & Hu0 & _ & _ & _ & _ & Hb).
  assert (Hsuf : HasSuffix (U_Path (bc_baseURL b)) "/v1" = true)
    by (rewrite Hb; apply cleanPath_suffix).
  pose proof (TrimSuffix_v1 _ Hsuf) as Htrim.
  assert (Hq : U_RawQuery (bc_baseURL b) = EmptyString) by (now rewrite Hb).
  assert (Htok : bc_token b = secret) by (now rewrite Hb).
  assert (Hu : forall u, Parse host = Ok u ->
                 U_Scheme (bc_baseURL b) = U_Scheme u
                 /\ U_Host (bc_baseURL b) = U_Host u).
  { intros u Hpu. rewrite Hu0 in Hpu. injection Hpu as <-. now rewrite Hb. }
  apply is_empty_false in Hrel.
  assert (Hpath : Path (Req_URL req)
                  = U_Path (bc_baseURL b) +:+ "/" +:+ TrimPrefix path "/").
  { unfold req, newRequest. cbn [client_of baseURL Path]. rewrite Hrel, Htrim. cbn [negb].
    now destruct (0 <? length query)%nat. }
  split; [|split; [|split]].
  - destruct (HasSuffix_split _ _ Hsuf) as [root Hroot]. exists root.
    rewrite Hpath, Hroot. split; [|reflexivity]. apply append_assoc3.
  - unfold req, newRequest. cbn [Req_Authorization client_of token]. now rewrite Htok.
  - intros ->. unfold req, newRequest. cbn [client_of baseURL Path RawQuery length Nat.ltb Nat.leb].
    rewrite Hrel. cbn [negb Req_URL RawQuery]. exact Hq.
  - intros u Hpu. destruct (Hu u Hpu) as (Hs & Hh).
    unfold req, newRequest. cbn [client_of baseURL Scheme Host].
    rewrite Hrel. cbn [negb]. destruct (0 <? length query)%nat; cbn; auto.
Qed.

(** X18. When [main] gets as far as listening, the secret, the Connect
    host and the Connect token of the configuration are not empty; it
    listens on the configured address, or on [:3000] when none is given;
    the client holds the configured token and a timeout that is not zero,
    15 seconds when none is configured; the logger is at debug level
    exactly when debugging is on.  The entry point never fails with the
    client's own missing-host or missing-token error. *)
Theorem main_listens (env : Result string spec) :
  (forall l, main Parse env = Ok l ->
     exists spec,
       env = Ok spec
       /\ Spec_Secret spec <> EmptyString
       /\ Spec_ConnectHost spec <> EmptyString
       /\ Spec_ConnectToken spec <> EmptyString
       /\ listen_secret l = Spec_Secret spec
       /\ listen_bind l <> EmptyString
       /\ (Spec_Bind spec = EmptyString -> listen_bind l = ":3000")
       /\ (Spec_Bind spec <> EmptyString -> listen_bind l = Spec_Bind spec)
       /\ bc_token (plugin_client (listen_plugin l)) = Spec_ConnectToken spec
       /\ Timeout (bc_httpClient (plugin_client (listen_plugin l))) <> 0
       /\ (Spec_ConnectTimeout spec = 0 ->
           Timeout (bc_httpClient (plugin_client (listen_plugin l))) = 15000000000)
       /\ (Level (listen_logger l) = DebugLevel <-> Spec_Debug spec = true)
       /\ plugin_logger (listen_plugin l) = listen_logger l
       /\ newConnectClient Parse (Spec_ConnectHost spec) (Spec_ConnectToken spec)
            (Some (bc_httpClient (plugin_client (listen_plugin l))))
          = Ok (plugin_client (listen_plugin l)))
  /\ main Parse env <> Err (FatalNew ErrMissingHost)
  /\ main Parse env <> Err (FatalNew ErrMissingToken).
Proof.
  unfold main. destruct env as [spec|err]; [|repeat split; discriminate].
  destruct (is_empty (Spec_Secret spec)) eqn:Es; [repeat split; discriminate|].
  destruct (is_empty (Spec_ConnectHost spec)) eqn:Eh; [repeat split; discriminate|].
  destruct (is_empty (Spec_ConnectToken spec)) eqn:Et; [repeat split; discriminate|].
  unfold New. cbn [Config_BaseURL Config_Token Config_HTTPClient Config_Logger].
  set (timeout := if Spec_ConnectTimeout spec =? 0 then 15 * Second
                  else Spec_ConnectTimeout spec).
  assert (Htimeout : timeout <> 0).
  { unfold timeout. destruct (Spec_ConnectTimeout spec =? 0) eqn:E.
    - unfold Second. lia.
    - now apply Z.eqb_neq in E. }
  destruct (newConnectClient Parse (Spec_ConnectHost spec) (Spec_ConnectToken spec)
              (Some {| Timeout := timeout |})) as [b|e] eqn:En.
  - split; [|split; discriminate].
    intros l [= <-]. exists spec.
    pose proof En as Hpath.
    apply newConnectClient_path in Hpath as (u & _ & _ & _ & _ & _ & Hbuilt).
    assert (Htok : bc_token b = Spec_ConnectToken spec) by (now rewrite Hbuilt).
    assert (Hhc : bc_httpClient b = {| Timeout := timeout |}) by (now rewrite Hbuilt).
    apply is_empty_false in Es, Eh, Et.
    cbn [listen_secret listen_bind listen_plugin listen_logger plugin_client plugin_logger].
    rewrite Hhc, Htok. cbn [Timeout].
    repeat (split; [solve [auto]|]).
    split.
    { destruct (is_empty (Spec_Bind spec)) eqn:Eb; [discriminate|].
      now apply is_empty_false in Eb. }
    split.
    { intros Hb. now rewrite Hb. }
    split.
    { intros Hb. apply is_empty_false in Hb. now rewrite Hb. }
    split; [reflexivity|]. split; [exact Htimeout|].
    split.
    { intros Hz. unfold timeout. now rewrite Hz. }
    split.
    { destruct (Spec_Debug spec); cbn; split; congruence. }
    split; [reflexivity|]. rewrite ?Hhc. exact En.
  - split; [discriminate|].
    unfold newConnectClient in En. rewrite Eh, Et in En.
    destruct (Parse (Spec_ConnectHost spec)) as [u|err];
      [destruct (is_empty (U_Scheme u) || is_empty (U_Host u))|];
      try discriminate; injection En as <-; split; discriminate.
Qed.

End ConstructionProperties.

(** ** Values that come back, and values sent as they are *)

Section MoreClient.
Context {W : Type} (roundTrip : httpRequest -> W -> Result error httpResponse * W).

(** X19. [get] returns a value only from a response with a status in
    200..299 whose body decodes, and then that decoded value: never from a
    failed round trip, another status or an undecodable body. *)
Theorem get_ok_iff {A : Type} (c : connectClient) (path : string) (query : Values)
    (decode : jsonBody -> option A) (st : clientState) (a : A) :
  fst (get roundTrip c path query (Some decode) st) = Ok (Some a)
  <-> exists resp w',
        roundTrip (newRequest c path query) (world st) = (Ok resp, w')
        /\ success resp /\ decode (Body resp) = Some a.
Proof.
  split.
  - unfold get. destruct (roundTrip _ _) as [[resp|e] w'] eqn:Er; [|discriminate].
    destruct ((200 <=? StatusCode resp) && (StatusCode resp <? 300)) eqn:Es;
      [|discriminate].
    destruct (decode (Body resp)) as [a'|] eqn:Ed; [|discriminate].
    intros [= <-]. exists resp, w'. apply success_test in Es. auto.
  - intros (resp & w' & Hrt & Hs & Hd).
    now rewrite (get_decoded roundTrip _ _ _ _ _ _ _ _ Hrt Hs Hd).
Qed.

Context `{GoStrings}.

(** X20. A resolution succeeds whenever the request has a name, its path
    parses, the store answers the three requests in turn with a success
    status and bodies that decode to one vault, one item summary and the
    item, and the selector selects a value in that item; the secret then
    holds the name and that value, and exactly these three requests were
    sent. *)
Theorem Find_succeeds (c : connectClient) (req : Request) (st : clientState)
    (vaultName itemTitle selector value : string)
    (r1 r2 r3 : httpResponse) (w1 w2 w3 : W)
    (vault : vaultSummary) (summary : itemSummary) (item : fullItem) :
  Req_Name req <> EmptyString ->
  parseSecretPath (Req_Path req) = Ok (vaultName, itemTitle, selector) ->
  roundTrip (vaultRequest c vaultName) (world st) = (Ok r1, w1) ->
  success r1 -> as_vaults (Body r1) = Some [vault] ->
  roundTrip (itemRequest c (Vault_ID vault) itemTitle) w1 = (Ok r2, w2) ->
  success r2 -> as_items (Body r2) = Some [summary] ->
  roundTrip (loadRequest c (Vault_ID vault) (Summary_ID summary)) w2 = (Ok r3, w3) ->
  success r3 -> as_item (Body r3) = Some item ->
  selectFieldValue item selector = Ok value ->
  Find roundTrip c (Some req) st
    = (Ok {| Secret_Name := Req_Name req; Secret_Data := value;
             Secret_PullRequest := false |},
       {| world := w3;
          sent := sent st ++ [ vaultRequest c vaultName;
                               itemRequest c (Vault_ID vault) itemTitle;
                               loadRequest c (Vault_ID vault) (Summary_ID summary) ] |}).
Proof.
  intros Hn Hp Hr1 Hs1 Hd1 Hr2 Hs2 Hd2 Hr3 Hs3 Hd3 Hsel.
  apply is_empty_false in Hn.
  unfold Find. rewrite Hn, Hp.
  unfold mbind, M_bind, mret, M_ret, findVaultByName, findItemByTitle, getItem.
  unfold mbind, M_bind, mret, M_ret.
  unfold vaultRequest in Hr1.
  rewrite (get_decoded roundTrip c _ _ as_vaults st r1 w1 [vault] Hr1 Hs1 Hd1).
  cbv beta iota delta [default from_option id].
  unfold itemRequest in Hr2.
  rewrite (get_decoded roundTrip c _ _ as_items
             (after st (newRequest c "vaults" [("filter", [buildEqualsFilter "name" vaultName])]) w1)
             r2 w2 [summary] Hr2 Hs2 Hd2).
  cbv beta iota delta [default from_option id].
  unfold loadRequest in Hr3.
  rewrite (get_decoded roundTrip c _ _ as_item
             (after
                (after st (newRequest c "vaults"
                             [("filter", [buildEqualsFilter "name" vaultName])]) w1)
                (newRequest c ("vaults/" +:+ escapePathSegment (Vault_ID vault) +:+ "/items")
                   [("filter", [buildEqualsFilter "title" itemTitle])]) w2)
             r3 w3 item Hr3 Hs3 Hd3).
  cbv beta iota delta [default from_option id].
  rewrite Hsel. unfold after. cbn [sent world].
  now rewrite <- !app_assoc.
Qed.

End MoreClient.

Lemma alnum_unescaped (c : ascii) (mode : encoding) :
  alnum c = true -> shouldEscape c mode = false.
Proof. unfold alnum, shouldEscape. now intros ->. Qed.

Lemma alnum_not_plus (c : ascii) : alnum c = true -> Ascii.eqb c "+" = false.
Proof.
  intros Hc. destruct (Ascii.eqb c "+") eqn:E; [|reflexivity].
  apply Ascii.eqb_eq in E. subst c. discriminate Hc.
Qed.

(** X21. Plain values are sent as they are: an identifier of letters and
    digits is its own path segment, and a value without double quote and
    backslash stands unchanged between the quotes of the filter. *)
Theorem plain_values_unchanged (s field : string) :
  (all_alnum s = true -> escapePathSegment s = s)
  /\ (hasByte dquote s = false -> hasByte "\" s = false ->
      buildEqualsFilter field s
      = field +:+ " eq " +:+ String dquote (s +:+ String dquote EmptyString)).
Proof.
  split.
  - intros Hs. unfold escapePathSegment.
    assert (Hesc : PathEscape s = s /\ hasByte "+" s = false).
    { unfold PathEscape. induction s as [|c s IH]; [split; reflexivity|].
      cbn [all_alnum] in Hs. apply andb_prop in Hs as [Hc Hs].
      destruct (IH Hs) as [IH1 IH2]. cbn [escape hasByte].
      rewrite (alnum_unescaped c _ Hc), IH1, (alnum_not_plus c Hc), IH2. auto. }
    destruct Hesc as [-> Hplus]. now apply ReplaceAll_absent.
  - intros Hq Hb. unfold buildEqualsFilter, escapeFilterValue.
    now rewrite (ReplaceAll_absent s "\" _ Hb), (ReplaceAll_absent s dquote _ Hq).
Qed.

(** * Running the definitions

    The cases of the package's tests, on ASCII text. *)

Example parse_basic :
  @parseSecretPath ascii_strings "Vault/Item" = Ok ("Vault", "Item", EmptyString).
Proof. reflexivity. Qed.

Example parse_with_field :
  @parseSecretPath ascii_strings "Vault/Item/Field" = Ok ("Vault", "Item", "Field").
Proof. reflexivity. Qed.

Example parse_trim_spaces :
  @parseSecretPath ascii_strings " Vault / Item / Field " = Ok ("Vault", "Item", "Field").
Proof. reflexivity. Qed.

Example select_default :
  @selectFieldValue ascii_strings sample_item EmptyString = Ok "hunter2".
Proof. reflexivity. Qed.

Example select_label :
  @selectFieldValue ascii_strings sample_item "Password" = Ok "hunter2".
Proof. reflexivity. Qed.

Example select_section :
  @selectFieldValue ascii_strings sample_item "Service Keys / Token" = Ok "abc123".
Proof. vm_compute. reflexivity. Qed.

Example select_notes :
  @selectFieldValue ascii_strings sample_item "notes" = Ok "secret note"
  /\ @selectFieldValue ascii_strings sample_item "notesPlain" = Ok "secret note".
Proof. split; reflexivity. Qed.

Example select_shared_label :
  @selectFieldValue ascii_strings shared_label_item "Service Keys / Token"
    = Err (ErrFieldDuplicated "Token" "Service Keys").
Proof. vm_compute. reflexivity. Qed.

Example filter_of_test :
  buildEqualsFilter "name" "Production Vault"
    = "name eq " +:+ String dquote ("Production Vault" +:+ String dquote EmptyString).
Proof. reflexivity. Qed.

Example find_of_test :
  fst (@Find nat sample_store ascii_strings sample_client
         (Some {| Req_Name := "db_password";
                  Req_Path := "Production Vault/Database Credentials" |}) start)
    = Ok {| Secret_Name := "db_password"; Secret_Data := "hunter2";
            Secret_PullRequest := false |}
  /\ map (fun r => Path (Req_URL r))
       (sent (snd (@Find nat sample_store ascii_strings sample_client
                     (Some {| Req_Name := "db_password";
                              Req_Path := "Production Vault/Database Credentials" |})
                     start)))
     = ["/v1/vaults"; "/v1/vaults/vault-id/items"; "/v1/vaults/vault-id/items/item-id"].
Proof. split; vm_compute; reflexivity. Qed.

Example find_rejects_before_sending :
  @Find nat sample_store ascii_strings sample_client None start
    = (Err ErrNilRequest, start)
  /\ @Find nat sample_store ascii_strings sample_client
       (Some {| Req_Name := EmptyString; Req_Path := "OnlyVault" |}) start
     = (Err ErrEmptyName, start).
Proof. split; reflexivity. Qed.

Example query_of_test :
  RawQuery (Req_URL (newRequest sample_client "vaults"
                       [("filter", [buildEqualsFilter "name" "Production Vault"])]))
    = "filter=name+eq+%22Production+Vault%22".
Proof. reflexivity. Qed.

(** * Instances of the theorems on the sample data *)

Lemma selectFieldValue_default_password_witness :
  @selectFieldValue ascii_strings sample_item EmptyString = Ok "hunter2".
Proof.
  destruct (@selectFieldValue_default_password ascii_strings sample_item) as (H1 & _).
  destruct (H1 eq_refl) as (f & Hf & Hv).
  vm_compute in Hf. injection Hf as <-. exact Hv.
Defined.

Lemma selectFieldValue_section_qualified_witness :
  hasByte "/" "Service Keys " = false
  /\ @TrimSpace ascii_strings "Service Keys " <> EmptyString
  /\ @selectFieldValue ascii_strings sample_item "Service Keys / Token" = Ok "abc123"
  /\ @selectFieldValue ascii_strings shared_label_item "Service Keys / Token"
     = Err (ErrFieldDuplicated "Token" "Service Keys").
Proof.
  assert (Hblank : @TrimSpace ascii_strings "Service Keys " <> EmptyString)
    by (vm_compute; discriminate).
  split; [reflexivity|]. split; [exact Hblank|]. split.
  - destruct (@selectFieldValue_section_qualified ascii_strings sample_item
                "Service Keys " " Token" eq_refl Hblank)
      as (Hids & _ & _ & Hone & _).
    assert (Hne : @section_ids ascii_strings sample_item
                    (@TrimSpace ascii_strings "Service Keys ") <> ∅).
    { intros He.
      assert (Hin : "sec" ∈ @section_ids ascii_strings sample_item
                              (@TrimSpace ascii_strings "Service Keys ")).
      { apply Hids. exists {| Section_ID := "sec"; Section_Label := "Service Keys" |}.
        split; [now left|]. split; reflexivity. }
      rewrite He in Hin. exact (not_elem_of_empty _ Hin). }
    destruct (Hone Hne) as (f & Hf & Hv); [vm_compute; reflexivity|].
    vm_compute in Hf. injection Hf as <-. exact Hv.
  - destruct (@selectFieldValue_section_qualified ascii_strings shared_label_item
                "Service Keys " " Token" eq_refl Hblank)
      as (_ & _ & _ & _ & _ & Htwo).
    apply (Htwo {| Section_ID := "s1"; Section_Label := "Service Keys" |}
                {| Section_ID := "s2"; Section_Label := "service keys" |}
                0%nat 1%nat
                (plain_field "Token" "first" EmptyString
                   (Some {| FieldSection_ID := "s1" |}))
                (plain_field "token" "second" EmptyString
                   (Some {| FieldSection_ID := "s2" |})));
      try reflexivity.
    + now left.
    + right. now left.
    + discriminate.
Defined.

Lemma parseSecretPath_selector_witness :
  @parseSecretPath ascii_strings " Vault / Item / Keys/Token "
    = Ok ("Vault", "Item", "Keys/Token")
  /\ (length (SplitN " Vault / Item / Keys/Token " "/" 3) <= 3)%nat
  /\ "Keys/Token" = @TrimSpace ascii_strings " Keys/Token ".
Proof.
  assert (Hok : @parseSecretPath ascii_strings " Vault / Item / Keys/Token "
                = Ok ("Vault", "Item", "Keys/Token")) by reflexivity.
  destruct (@parseSecretPath_selector ascii_strings _ _ _ _ Hok) as (Hlen & _ & Hthree).
  split; [exact Hok|]. split; [exact Hlen|].
  destruct (Hthree " Vault " " Item " " Keys/Token " eq_refl eq_refl eq_refl)
    as (_ & _ & Hfield).
  exact Hfield.
Defined.

Lemma selectFieldValue_nonempty_witness :
  @selectFieldValue ascii_strings sample_item "notes" = Ok "secret note"
  /\ "secret note" <> EmptyString.
Proof.
  assert (Hok : @selectFieldValue ascii_strings sample_item "notes" = Ok "secret note")
    by reflexivity.
  split; [exact Hok|].
  exact (@selectFieldValue_nonempty ascii_strings sample_item "notes" "secret note" Hok).
Defined.

Lemma selectFieldValue_blank_section_witness :
  hasByte "/" " " = false
  /\ @TrimSpace ascii_strings " " = EmptyString
  /\ @selectFieldValue ascii_strings sample_item " / Token"
     = @findFieldByLabel ascii_strings sample_item " Token"
  /\ @selectFieldValue ascii_strings sample_item " / Token" = Ok "abc123".
Proof.
  destruct (@selectFieldValue_blank_section ascii_strings sample_item " " " Token"
              eq_refl eq_refl) as (_ & Hlabel & Hlookup & _).
  split; [reflexivity|]. split; [reflexivity|]. split; [exact Hlabel|].
  exact (eq_trans Hlookup eq_refl).
Defined.

Lemma get_api_error_witness :
  rate_limited_store (newRequest sample_client "vaults" []) (world start)
    = (Ok rate_limited_response, 1%nat)
  /\ fst (get rate_limited_store sample_client "vaults" [] (Some as_vaults) start)
     = Err (ErrAPI 429 "rate limited").
Proof.
  assert (Hrt : rate_limited_store (newRequest sample_client "vaults" []) (world start)
                = (Ok rate_limited_response, 1%nat)) by reflexivity.
  split; [exact Hrt|].
  destruct (get_api_error rate_limited_store sample_client "vaults" []
              (Some as_vaults) start rate_limited_response 1%nat Hrt) as (Hfail & _).
  destruct Hfail as (message & Hr & Hmsg & _).
  - unfold success. cbn. lia.
  - rewrite Hr. f_equal. f_equal.
    apply (Hmsg {| Payload_Status := 429; Payload_Message := "rate limited" |});
      [reflexivity|discriminate].
Defined.

Lemma find_exactly_one_witness :
  fst (findVaultByName sample_store sample_client "Production Vault" start)
    = Ok {| Vault_ID := "vault-id"; Vault_Name := "Production Vault" |}.
Proof.
  destruct (find_exactly_one sample_store sample_client start) as (Hvault & _).
  destruct (Hvault "Production Vault" _ _ _ eq_refl ltac:(unfold success; cbn; lia) eq_refl)
    as (Hone & _).
  apply Hone. reflexivity.
Defined.

Lemma escapePathSegment_roundtrip_witness :
  hasByte "+" "a b/c?d" = false
  /\ escapePathSegment "a b/c?d" = "a%20b%2Fc%3Fd"
  /\ PathUnescape (escapePathSegment "a b/c?d") = Some "a b/c?d".
Proof.
  split; [reflexivity|]. split; [reflexivity|].
  exact (escapePathSegment_roundtrip "a b/c?d" eq_refl).
Defined.

(** C6 as worded fails: the store answers 429 with a payload that decodes
    and whose message member is empty; the error carries the status line,
    not the message member. *)
Lemma get_empty_message_counterexample :
  throttling_store (newRequest sample_client "vaults" []) (world start)
    = (Ok empty_message_response, 1%nat)
  /\ as_payload (Body empty_message_response)
     = Some {| Payload_Status := 429; Payload_Message := EmptyString |}
  /\ fst (get throttling_store sample_client "vaults" [] (Some as_vaults) start)
     = Err (ErrAPI 429 "429 Too Many Requests")
  /\ fst (get throttling_store sample_client "vaults" [] (Some as_vaults) start)
     <> Err (ErrAPI 429 EmptyString)
  /\ ~ message_from_payload_when_present.
Proof.
  split; [reflexivity|]. split; [reflexivity|]. split; [reflexivity|].
  split; [discriminate|].
  intros Hclaim.
  specialize (Hclaim throttling_store sample_client "vaults" [] start
                empty_message_response 1%nat
                {| Payload_Status := 429; Payload_Message := EmptyString |}
                eq_refl).
  assert (Hfail : ~ success empty_message_response) by (unfold success; cbn; lia).
  specialize (Hclaim Hfail eq_refl). discriminate Hclaim.
Qed.

(** * Instances of the further properties *)

Example construct_cases :
  newConnectClient sample_Parse EmptyString EmptyString None = Err ErrMissingHost
  /\ newConnectClient sample_Parse "https://connect.example.com" EmptyString None
     = Err ErrMissingToken
  /\ newConnectClient sample_Parse "connect.example.com" "token" None = Err ErrSchemeHost
  /\ newConnectClient sample_Parse "http://[" "token" None = Err (ErrInvalidHost "parse error")
  /\ option_map (fun b => U_Path (bc_baseURL b))
       (match newConnectClient sample_Parse "https://connect.example.com" "token" None with
        | Ok b => Some b
        | Err _ => None
        end) = Some "/v1".
Proof. repeat split; reflexivity. Qed.

Example error_text :
  apiError_Error 429 "rate limited" = "1Password Connect error (429): rate limited".
Proof. reflexivity. Qed.

Lemma parseSecretPath_roundtrip_witness :
  hasByte "/" "Production Vault" = false
  /\ @TrimSpace ascii_strings "Service Keys / Token" = "Service Keys / Token"
  /\ @parseSecretPath ascii_strings
     "Production Vault/Database Credentials/Service Keys / Token"
    = Ok ("Production Vault", "Database Credentials", "Service Keys / Token")
  /\ @parseSecretPath ascii_strings "Production Vault/Database Credentials"
     = Ok ("Production Vault", "Database Credentials", EmptyString).
Proof.
  split; [reflexivity|]. split; [reflexivity|].
  apply (@parseSecretPath_roundtrip ascii_strings
           "Production Vault" "Database Credentials" "Service Keys / Token");
    first [reflexivity | discriminate].
Defined.

Lemma parseSecretPath_normalised_witness :
  @parseSecretPath ascii_strings " Vault / Item / Field " = Ok ("Vault", "Item", "Field")
  /\ "Vault" <> EmptyString /\ "Item" <> EmptyString
  /\ @TrimSpace ascii_strings "Vault" = "Vault"
  /\ @TrimSpace ascii_strings "Item" = "Item"
  /\ @TrimSpace ascii_strings "Field" = "Field".
Proof.
  split; [reflexivity|].
  exact (@parseSecretPath_normalised ascii_strings " Vault / Item / Field "
           "Vault" "Item" "Field" eq_refl).
Defined.


Lemma selectFieldValue_permutation_witness :
  Permutation (Item_Fields sample_item) (Item_Fields reordered_item)
  /\ @selectFieldValue ascii_strings sample_item EmptyString
     = @selectFieldValue ascii_strings reordered_item EmptyString.
Proof.
  assert (Hp : Permutation (Item_Fields sample_item) (Item_Fields reordered_item))
    by exact (Permutation_rev (Item_Fields sample_item)).
  split; [exact Hp|].
  apply (@selectFieldValue_permutation ascii_strings sample_item reordered_item);
    [reflexivity|reflexivity|exact Hp|reflexivity].
Defined.

Lemma qualified_agrees_with_unqualified_witness :
  hasByte "/" "Service Keys " = false
  /\ @selectFieldValue ascii_strings sample_item "Service Keys / Token" = Ok "abc123"
  /\ (@selectFieldValue ascii_strings sample_item "/ Token" = Ok "abc123"
      \/ @selectFieldValue ascii_strings sample_item "/ Token"
         = Err (ErrFieldAmbiguous "Token" "Sample")).
Proof.
  assert (Hq : @selectFieldValue ascii_strings sample_item "Service Keys / Token"
               = Ok "abc123") by (vm_compute; reflexivity).
  split; [reflexivity|]. split; [exact Hq|].
  apply (@qualified_agrees_with_unqualified ascii_strings sample_item
           "Service Keys " " Token" "abc123" eq_refl);
    [vm_compute; discriminate|exact Hq].
Defined.

Lemma Find_failure_stage_witness :
  @Find nat throttling_store ascii_strings sample_client
     (Some {| Req_Name := "db_password";
              Req_Path := "Production Vault/Database Credentials" |}) start
    = (Err (ErrWrap LookupVault "Production Vault"
              (ErrAPI 429 "429 Too Many Requests")),
       {| world := 1%nat; sent := [vaultRequest sample_client "Production Vault"] |})
  /\ exists reqs,
       [vaultRequest sample_client "Production Vault"] = sent start ++ reqs.
Proof.
  assert (Hf : @Find nat throttling_store ascii_strings sample_client
                 (Some {| Req_Name := "db_password";
                          Req_Path := "Production Vault/Database Credentials" |}) start
               = (Err (ErrWrap LookupVault "Production Vault"
                         (ErrAPI 429 "429 Too Many Requests")),
                  {| world := 1%nat;
                     sent := [vaultRequest sample_client "Production Vault"] |}))
    by reflexivity.
  split; [exact Hf|].
  destruct (@Find_failure_stage nat throttling_store ascii_strings sample_client
              _ _ _ _ Hf) as (reqs & Hs & _).
  exists reqs. exact Hs.
Defined.

Lemma apiError_Error_injective_witness :
  apiError_Error 429 "rate limited" = apiError_Error 429 "rate limited"
  /\ 429 = 429 /\ "rate limited" = "rate limited".
Proof.
  split; [reflexivity|].
  exact (apiError_Error_injective 429 429 "rate limited" "rate limited" eq_refl).
Defined.

Lemma newConnectClient_normalised_witness :
  newConnectClient sample_Parse "http://connect.local/api/?debug=1#top" "token" None
    = Ok sample_built
  /\ HasSuffix (U_Path (bc_baseURL sample_built)) "/v1" = true
  /\ U_RawQuery (bc_baseURL sample_built) = EmptyString
  /\ U_Fragment (bc_baseURL sample_built) = EmptyString.
Proof.
  assert (Hb : newConnectClient sample_Parse "http://connect.local/api/?debug=1#top"
                 "token" None = Ok sample_built) by reflexivity.
  split; [exact Hb|].
  destruct (newConnectClient_normalised sample_Parse _ _ _ _ Hb)
    as (Hs & _ & Hq & Hf & _).
  auto.
Defined.

Lemma built_client_requests_witness :
  newConnectClient sample_Parse "http://connect.local/api/?debug=1#top" "token" None
    = Ok sample_built
  /\ TrimPrefix "vaults" "/" <> EmptyString
  /\ Req_Authorization (newRequest (client_of sample_built) "vaults" []) = "Bearer token"
  /\ RawQuery (Req_URL (newRequest (client_of sample_built) "vaults" [])) = EmptyString.
Proof.
  assert (Hb : newConnectClient sample_Parse "http://connect.local/api/?debug=1#top"
                 "token" None = Ok sample_built) by reflexivity.
  assert (Hrel : TrimPrefix "vaults" "/" <> EmptyString) by discriminate.
  split; [exact Hb|]. split; [exact Hrel|].
  destruct (built_client_requests sample_Parse _ _ _ _ "vaults" [] Hb Hrel)
    as (_ & Ha & Hq & _).
  split; [exact Ha|exact (Hq eq_refl)].
Defined.

Lemma Find_succeeds_witness :
  @Find nat sample_store ascii_strings sample_client
     (Some {| Req_Name := "db_password";
              Req_Path := "Production Vault/Database Credentials" |}) start
    = (Ok {| Secret_Name := "db_password"; Secret_Data := "hunter2";
             Secret_PullRequest := false |},
       {| world := 3%nat;
          sent := [ vaultRequest sample_client "Production Vault";
                    itemRequest sample_client "vault-id" "Database Credentials";
                    loadRequest sample_client "vault-id" "item-id" ] |}).
Proof.
  eapply (@Find_succeeds nat sample_store ascii_strings sample_client
            {| Req_Name := "db_password";
               Req_Path := "Production Vault/Database Credentials" |} start
            "Production Vault" "Database Credentials" EmptyString "hunter2"
            _ _ _ 1%nat 2%nat 3%nat
            {| Vault_ID := "vault-id"; Vault_Name := "Production Vault" |}
            {| Summary_ID := "item-id"; Summary_Title := "Database Credentials" |}
            database_item).
  - discriminate.
  - reflexivity.
  - reflexivity.
  - unfold success. cbn. lia.
  - reflexivity.
  - reflexivity.
  - unfold success. cbn. lia.
  - reflexivity.
  - reflexivity.
  - unfold success. cbn. lia.
  - reflexivity.
  - reflexivity.
Defined.

Lemma plain_values_unchanged_witness :
  all_alnum "hfnjvi6aymbsnfc2xeeoheizda" = true
  /\ escapePathSegment "hfnjvi6aymbsnfc2xeeoheizda" = "hfnjvi6aymbsnfc2xeeoheizda".
Proof.
  split; [reflexivity|].
  exact (proj1 (plain_values_unchanged "hfnjvi6aymbsnfc2xeeoheizda" "name") eq_refl).
Defined.
